(** * ws4sqlite-client-go: request builder, client round trip, response decoder

    A shallow embedding of the Go package [ws4sqlite_client]
    (request.go, client.go 0.11.0, response.go) together with the
    properties of its builder and of [SendWithContext].

    Conventions of the embedding.
    - A Go [string] is a [string]; the zero value is the empty string and
      the code tests [s != ""] with [decide].
    - A Go [int] / [int64] is a [Z].
    - A Go pointer, map or slice that the code or [encoding/json] tests
      against [nil] is an [option]: [None] is [nil], [Some] is a non-nil
      value, so a non-nil empty slice [Some []] stays distinct from
      [nil]. A slice that is only ranged over or appended to is a list.
    - [interface{}] is an abstract type [any]: the code never looks inside.
    - A method with a pointer receiver is a function on the pointed-to
      value returning the updated value; a nil-pointer dereference is the
      outcome [Panics].
    - [*Request] arguments of [Send] are locations in a store, because
      [Send] writes through the pointer. *)

From Stdlib Require Import ZArith.
From stdpp Require Import gmap strings list fin_maps pretty.

#[local] Set Warnings "-register-all,-clear-no-such-hyp".
#[local] Open Scope string_scope.
#[local] Open Scope list_scope.
#[local] Open Scope Z_scope.

(** ** Outcomes of a Go call: normal return or run-time panic *)

Inductive outcome (A : Type) : Type :=
  | Returns (a : A)
  | Panics.
Arguments Returns {A} a.
Arguments Panics {A}.

Definition obind {A B : Type} (o : outcome A) (k : A -> outcome B) : outcome B :=
  match o with
  | Returns a => k a
  | Panics => Panics
  end.

Notation "x <~ o ;; k" := (obind o (fun x => k))
  (at level 100, o at next level, right associativity).

(** ** JSON documents, as [encoding/json] produces them *)

Inductive json : Type :=
  | JNull
  | JBool (b : bool)
  | JNum (z : Z)
  | JStr (s : string)
  | JArr (l : list json)
  | JObj (m : gmap string json).

(** ** Go's [error] values met in this package

    [errors.New], the typed [WsError] of the client, and whatever the
    standard library ([encoding/json], [net/http], [io]) hands back. *)

(** [SendWithContext] writes the index as [RequestIdx]; the declaration
    of 0.9.0 in client.go names the same field [QueryIndex]. *)
Record WsError : Type := {
  RequestIdx : Z;
  Msg : string;
  Code : Z
}.

Inductive error : Type :=
  | errors_New (msg : string)
  | error_WsError (w : WsError)
  | error_lib (pkg msg : string).

Definition set_RequestIdx (v : Z) (w : WsError) : WsError :=
  {| RequestIdx := v; Msg := Msg w; Code := Code w |}.

Definition set_Msg (v : string) (w : WsError) : WsError :=
  {| RequestIdx := RequestIdx w; Msg := v; Code := Code w |}.

Definition set_Code (v : Z) (w : WsError) : WsError :=
  {| RequestIdx := RequestIdx w; Msg := Msg w; Code := v |}.

(** [WsError{}] *)
Definition WsError_zero : WsError :=
  {| RequestIdx := 0; Msg := ""; Code := 0 |}.

(** A Go call returning [(T, error)]. *)
Definition ebind {A B : Type} (r : A + error) (k : A -> B + error) : B + error :=
  match r with
  | inl a => k a
  | inr e => inr e
  end.

Notation "x <-? r ;; k" := (ebind r (fun x => k))
  (at level 100, r at next level, right associativity).

(** ** response.go: the wire shape of a 200 body

    [json.RawMessage] is the raw text of one cell. *)

Definition RawMessage : Type := string.

Record responseItem : Type := {
  wSuccess : bool;
  wRowsUpdated : option Z;
  wRowsUpdatedBatch : option (list Z);
  wResultSet : option (list (gmap string RawMessage));
  wError : string
}.

(** [Results] is only ever ranged over, so a nil and an empty slice are
    not told apart here. *)
Record response : Type := {
  wResults : list responseItem
}.

(** ** net/http: what the client hands to the transport and gets back *)

Record HttpRequest : Type := {
  Method : string;
  URL : string;
  Body : json;
  BasicAuth : option (string * string);
  Header : list (string * string)
}.

Definition SetBasicAuth (username password : string) (post : HttpRequest) : HttpRequest :=
  {| Method := Method post; URL := URL post; Body := Body post;
     BasicAuth := Some (username, password); Header := Header post |}.

Definition Header_Add (key value : string) (post : HttpRequest) : HttpRequest :=
  {| Method := Method post; URL := URL post; Body := Body post;
     BasicAuth := BasicAuth post; Header := Header post ++ [(key, value)] |}.

(** [StatusCode] and the result of [io.ReadAll(resp.Body)]. *)
Record HttpResponse : Type := {
  StatusCode : Z;
  ReadAll_Body : string + error
}.

(** ** The standard library and the network, as the package sees them

    None of this is code of the package: the behaviour of
    [encoding/json] on dynamic values and on incoming text, the checks of
    [http.NewRequestWithContext] and the round trip of [http.Client.Do]
    are taken as they come. [json_Unmarshal_WsError] returns the target
    it was given as the decoder left it, which on a type mismatch may be
    partly filled. *)

Class Runtime (any : Type) : Type := {
  Context_ : Type;
  context_Background : Context_;
  json_Marshal_any : any -> json + error;
  http_NewRequest_check : Context_ -> string -> string -> option error;
  client_Do : Context_ -> HttpRequest -> HttpResponse + error;
  json_Unmarshal_WsError : string -> WsError -> WsError * option error;
  json_Unmarshal_response : string -> response + error;
  json_Unmarshal_any : RawMessage -> any + error
}.

(** ** request.go: the data model *)

Record credentials : Type := {
  User : string;
  Password : string
}.

Record requestItemCrypto : Type := {
  cryptoPassword : string;
  Fields : list string;
  CompressionLevel : Z
}.

Section Model.

Context {any : Type} {RT : Runtime any}.

Record requestItem : Type := {
  Query : string;
  Statement : string;
  NoFail : bool;
  Values : option (gmap string any);
  ValuesBatch : option (list (gmap string any));
  Encoder : option requestItemCrypto;
  Decoder : option requestItemCrypto
}.

Record request : Type := {
  Credentials : option credentials;
  Transaction : list requestItem
}.

Record RequestBuilder : Type := {
  err : string;
  list_ : request;
  temp : option requestItem
}.

Record Request : Type := {
  req : request
}.

(** Field assignments [x.f = v]. *)

Definition set_Query (v : string) (t : requestItem) : requestItem :=
  {| Query := v; Statement := Statement t; NoFail := NoFail t;
     Values := Values t; ValuesBatch := ValuesBatch t;
     Encoder := Encoder t; Decoder := Decoder t |}.

Definition set_Statement (v : string) (t : requestItem) : requestItem :=
  {| Query := Query t; Statement := v; NoFail := NoFail t;
     Values := Values t; ValuesBatch := ValuesBatch t;
     Encoder := Encoder t; Decoder := Decoder t |}.

Definition set_NoFail (v : bool) (t : requestItem) : requestItem :=
  {| Query := Query t; Statement := Statement t; NoFail := v;
     Values := Values t; ValuesBatch := ValuesBatch t;
     Encoder := Encoder t; Decoder := Decoder t |}.

Definition set_Values (v : option (gmap string any)) (t : requestItem) : requestItem :=
  {| Query := Query t; Statement := Statement t; NoFail := NoFail t;
     Values := v; ValuesBatch := ValuesBatch t;
     Encoder := Encoder t; Decoder := Decoder t |}.

Definition set_ValuesBatch (v : option (list (gmap string any))) (t : requestItem) : requestItem :=
  {| Query := Query t; Statement := Statement t; NoFail := NoFail t;
     Values := Values t; ValuesBatch := v;
     Encoder := Encoder t; Decoder := Decoder t |}.

Definition set_Encoder (v : option requestItemCrypto) (t : requestItem) : requestItem :=
  {| Query := Query t; Statement := Statement t; NoFail := NoFail t;
     Values := Values t; ValuesBatch := ValuesBatch t;
     Encoder := v; Decoder := Decoder t |}.

Definition set_Decoder (v : option requestItemCrypto) (t : requestItem) : requestItem :=
  {| Query := Query t; Statement := Statement t; NoFail := NoFail t;
     Values := Values t; ValuesBatch := ValuesBatch t;
     Encoder := Encoder t; Decoder := v |}.

Definition set_Credentials (v : option credentials) (r : request) : request :=
  {| Credentials := v; Transaction := Transaction r |}.

Definition set_Transaction (v : list requestItem) (r : request) : request :=
  {| Credentials := Credentials r; Transaction := v |}.

Definition set_err (v : string) (rb : RequestBuilder) : RequestBuilder :=
  {| err := v; list_ := list_ rb; temp := temp rb |}.

Definition set_list (v : request) (rb : RequestBuilder) : RequestBuilder :=
  {| err := err rb; list_ := v; temp := temp rb |}.

Definition set_temp (v : option requestItem) (rb : RequestBuilder) : RequestBuilder :=
  {| err := err rb; list_ := list_ rb; temp := v |}.

(** [&requestItem{}]: every field at its zero value. *)
Definition requestItem_zero : requestItem :=
  {| Query := ""; Statement := ""; NoFail := false;
     Values := None; ValuesBatch := None;
     Encoder := None; Decoder := None |}.

(** [rb.temp.f = v] through the pointer [rb.temp]: panics when it is nil. *)
Definition assign_temp (f : requestItem -> requestItem) (rb : RequestBuilder)
  : outcome RequestBuilder :=
  match temp rb with
  | None => Panics
  | Some t => Returns (set_temp (Some (f t)) rb)
  end.

(** ** request.go: the builder *)

Definition NewRequestBuilder : RequestBuilder :=
  {| err := "";
     list_ := {| Credentials := None; Transaction := [] |};
     temp := None |}.

(** [if rb.temp != nil { rb.list.Transaction = append(rb.list.Transaction, *rb.temp) }] *)
Definition flush_temp (rb : RequestBuilder) : RequestBuilder :=
  match temp rb with
  | Some t => set_list (set_Transaction (Transaction (list_ rb) ++ [t]) (list_ rb)) rb
  | None => rb
  end.

Definition AddQuery (query : string) (rb : RequestBuilder) : outcome RequestBuilder :=
  if decide (err rb <> "") then Returns rb else
  let rb := flush_temp rb in
  let rb := set_temp (Some requestItem_zero) rb in
  assign_temp (set_Query query) rb.

Definition AddStatement (statement : string) (rb : RequestBuilder) : outcome RequestBuilder :=
  if decide (err rb <> "") then Returns rb else
  let rb := flush_temp rb in
  let rb := set_temp (Some requestItem_zero) rb in
  assign_temp (set_Statement statement) rb.

Definition WithNoFail (rb : RequestBuilder) : outcome RequestBuilder :=
  if decide (err rb <> "") then Returns rb else
  assign_temp (set_NoFail true) rb.

Definition WithValues (values : option (gmap string any)) (rb : RequestBuilder)
  : outcome RequestBuilder :=
  if decide (err rb <> "") then Returns rb else
  match values with
  | None => Returns (set_err "cannot specify a nil argument" rb)
  | Some vals =>
    match temp rb with
    | None => Panics
    | Some t =>
      if decide (Query t <> "" /\ (Values t <> None \/ ValuesBatch t <> None)) then
        Returns (set_err "cannot specify a batch for a query" rb)
      else
        match ValuesBatch t with
        | Some batch =>
          assign_temp (set_ValuesBatch (Some (batch ++ [vals]))) rb
        | None =>
          match Values t with
          | Some first =>
            rb <~ assign_temp (set_ValuesBatch (Some [first; vals])) rb ;;
            assign_temp (set_Values None) rb
          | None =>
            assign_temp (set_Values (Some vals)) rb
          end
        end
    end
  end.

Definition WithEncoderAndCompression (password : string) (compressionLevel : Z)
    (fields : list string) (rb : RequestBuilder) : outcome RequestBuilder :=
  if decide (err rb <> "") then Returns rb else
  if decide (compressionLevel < 1 \/ compressionLevel > 19) then
    Returns (set_err "compressionLevel must be between 1 and 19" rb)
  else if decide (Z.of_nat (length fields) <= 0) then
    Returns (set_err "cannot specify an empty fields list" rb)
  else
    match temp rb with
    | None => Panics
    | Some t =>
      if decide (Query t <> "") then
        Returns (set_err "cannot specify an encoder for a query" rb)
      else
        assign_temp (set_Encoder (Some {| cryptoPassword := password;
                                          CompressionLevel := compressionLevel;
                                          Fields := fields |})) rb
    end.

Definition WithEncoder (password : string) (fields : list string)
    (rb : RequestBuilder) : outcome RequestBuilder :=
  if decide (err rb <> "") then Returns rb else
  if decide (Z.of_nat (length fields) <= 0) then
    Returns (set_err "cannot specify an empty fields list" rb)
  else
    match temp rb with
    | None => Panics
    | Some t =>
      if decide (Query t <> "") then
        Returns (set_err "cannot specify an encoder for a query" rb)
      else
        assign_temp (set_Encoder (Some {| cryptoPassword := password;
                                          CompressionLevel := 0;
                                          Fields := fields |})) rb
    end.

Definition WithDecoder (password : string) (fields : list string)
    (rb : RequestBuilder) : outcome RequestBuilder :=
  if decide (err rb <> "") then Returns rb else
  if decide (Z.of_nat (length fields) <= 0) then
    Returns (set_err "cannot specify an empty fields list" rb)
  else
    match temp rb with
    | None => Panics
    | Some t =>
      if decide (Statement t <> "") then
        Returns (set_err "cannot specify a decoder for a statement" rb)
      else
        assign_temp (set_Decoder (Some {| cryptoPassword := password;
                                          CompressionLevel := 0;
                                          Fields := fields |})) rb
    end.

(** [Build] returns the pair of a [Request] pointer and an [error],
    together with the builder as the code leaves it ([rb.err] and
    [rb.list] are written). *)
Definition Build (rb : RequestBuilder)
  : outcome (RequestBuilder * (option Request * option error)) :=
  let rb := if decide (temp rb = None)
            then set_err "There are no requests" rb else rb in
  if decide (err rb <> "") then
    Returns (rb, (None, Some (errors_New (err rb))))
  else
    match temp rb with
    | None => Panics
    | Some t =>
      let rb := set_list (set_Transaction (Transaction (list_ rb) ++ [t]) (list_ rb)) rb in
      Returns (rb, (Some {| req := list_ rb |}, None))
    end.

(** ** request.go: the struct tags, as [json.Marshal] reads them

    A struct becomes an object keyed by the tag names; a field tagged
    [omitempty] is left out when it is the empty string, [false], [0], a
    nil pointer, or a nil or empty map or slice. *)

Definition put (key : string) (v : json) (o : gmap string json) : gmap string json :=
  <[key := v]> o.

Definition put_omitempty (empty : bool) (key : string) (v : json)
    (o : gmap string json) : gmap string json :=
  if empty then o else <[key := v]> o.

Definition marshal_credentials (c : credentials) : json :=
  JObj (put "password" (JStr (Password c)) (put "user" (JStr (User c)) ∅)).

Definition marshal_requestItemCrypto (c : requestItemCrypto) : json :=
  JObj (put_omitempty (bool_decide (CompressionLevel c = 0))
          "compressionLevel" (JNum (CompressionLevel c))
       (put "fields" (JArr (JStr <$> Fields c))
       (put "password" (JStr (cryptoPassword c)) ∅))).

Fixpoint marshal_entries (kvs : list (string * any)) : gmap string json + error :=
  match kvs with
  | [] => inl ∅
  | (k, v) :: kvs =>
    j <-? json_Marshal_any v ;;
    o <-? marshal_entries kvs ;;
    inl (<[k := j]> o)
  end.

Definition marshal_map (m : gmap string any) : json + error :=
  o <-? marshal_entries (map_to_list m) ;; inl (JObj o).

Fixpoint marshal_maps (ms : list (gmap string any)) : list json + error :=
  match ms with
  | [] => inl []
  | m :: ms =>
    j <-? marshal_map m ;;
    js <-? marshal_maps ms ;;
    inl (j :: js)
  end.

Definition is_nil {A : Type} (o : option A) : bool :=
  match o with None => true | Some _ => false end.

Definition marshal_requestItem (t : requestItem) : json + error :=
  values <-? match Values t with
             | None => inl JNull
             | Some m => marshal_map m
             end ;;
  valuesBatch <-? match ValuesBatch t with
                  | None => inl []
                  | Some ms => marshal_maps ms
                  end ;;
  inl (JObj
    (put_omitempty (is_nil (Decoder t)) "decoder"
       (default JNull (marshal_requestItemCrypto <$> Decoder t))
    (put_omitempty (is_nil (Encoder t)) "encoder"
       (default JNull (marshal_requestItemCrypto <$> Encoder t))
    (put_omitempty (bool_decide (valuesBatch = [])) "valuesBatch" (JArr valuesBatch)
    (put_omitempty (bool_decide (default ∅ (Values t) = ∅)) "values" values
    (put_omitempty (negb (NoFail t)) "noFail" (JBool (NoFail t))
    (put_omitempty (bool_decide (Statement t = "")) "statement" (JStr (Statement t))
    (put_omitempty (bool_decide (Query t = "")) "query" (JStr (Query t)) ∅)))))))).

Fixpoint marshal_transaction (ts : list requestItem) : list json + error :=
  match ts with
  | [] => inl []
  | t :: ts =>
    j <-? marshal_requestItem t ;;
    js <-? marshal_transaction ts ;;
    inl (j :: js)
  end.

(** [json.Marshal(req.req)]. The builder creates [Transaction] with
    [make], so it is never nil and always marshalled as an array. *)
Definition json_Marshal (r : request) : json + error :=
  transaction <-? marshal_transaction (Transaction r) ;;
  inl (JObj
    (put "transaction" (JArr transaction)
    (put_omitempty (is_nil (Credentials r)) "credentials"
       (default JNull (marshal_credentials <$> Credentials r)) ∅))).

(** ** response.go: what the caller receives *)

Record ResponseItem : Type := {
  Success : bool;
  RowsUpdated : option Z;
  RowsUpdatedBatch : option (list Z);
  ResultSet : option (list (gmap string any));
  Error : string
}.

(** [Results] is created with [make] and grown with [append]: never nil. *)
Record Response : Type := {
  Results : list ResponseItem
}.

Definition set_ResultSet (v : option (list (gmap string any))) (Ri : ResponseItem)
  : ResponseItem :=
  {| Success := Success Ri; RowsUpdated := RowsUpdated Ri;
     RowsUpdatedBatch := RowsUpdatedBatch Ri; ResultSet := v; Error := Error Ri |}.

(** ** client.go: configuration *)

Definition AuthMode : Type := string.
Definition AUTH_MODE_HTTP : AuthMode := "HTTP".
Definition AUTH_MODE_INLINE : AuthMode := "INLINE".
Definition AUTH_MODE_NONE : AuthMode := "NONE".

Record ClientBuilder : Type := {
  url : string;
  authMode : AuthMode;
  user : string;
  password : string
}.

(** [Client] embeds [ClientBuilder]; its fields are reached through it. *)
Record Client : Type := {
  builder : ClientBuilder
}.

Definition NewClientBuilder : ClientBuilder :=
  {| url := ""; authMode := AUTH_MODE_NONE; user := ""; password := "" |}.

Definition WithURL (url' : string) (cb : ClientBuilder) : ClientBuilder :=
  {| url := url'; authMode := authMode cb; user := user cb; password := password cb |}.

Definition WithInlineAuth (user' password' : string) (cb : ClientBuilder) : ClientBuilder :=
  {| url := url cb; authMode := AUTH_MODE_INLINE; user := user'; password := password' |}.

Definition WithHTTPAuth (user' password' : string) (cb : ClientBuilder) : ClientBuilder :=
  {| url := url cb; authMode := AUTH_MODE_HTTP; user := user'; password := password' |}.

Definition ClientBuilder_Build (cb : ClientBuilder) : option Client * option error :=
  if decide (url cb = "") then
    (None, Some (errors_New "no url specified"))
  else if decide (authMode cb <> AUTH_MODE_HTTP /\ authMode cb <> AUTH_MODE_NONE
                  /\ authMode cb <> AUTH_MODE_INLINE) then
    (None, Some (errors_New "invalid authMode"))
  else if decide (authMode cb <> AUTH_MODE_NONE /\ (user cb = "" \/ password cb = "")) then
    (None, Some (errors_New "no user or password specified"))
  else
    (Some {| builder := cb |}, None).

(** ** client.go: the decoding loops of [SendWithContext]

    Each loop of the source is a recursive function over what remains to
    be visited, with the value being built as accumulator. Go ranges
    over a map in no fixed order; the order of [map_to_list] stands for
    whichever order the run takes. *)

Fixpoint decodeCells (cells : list (string * RawMessage)) (Rirsi : gmap string any)
  : gmap string any + error :=
  match cells with
  | [] => inl Rirsi
  | (k, v) :: cells =>
    v2 <-? json_Unmarshal_any v ;;
    decodeCells cells (<[k := v2]> Rirsi)
  end.

Fixpoint decodeRows (rows : list (gmap string RawMessage)) (Rirs : list (gmap string any))
  : list (gmap string any) + error :=
  match rows with
  | [] => inl Rirs
  | row :: rows =>
    Rirsi <-? decodeCells (map_to_list row) ∅ ;;
    decodeRows rows (Rirs ++ [Rirsi])
  end.

Definition decodeItem (ri : responseItem) : ResponseItem + error :=
  let Ri := {| Success := wSuccess ri;
               Error := wError ri;
               RowsUpdated := wRowsUpdated ri;
               RowsUpdatedBatch := wRowsUpdatedBatch ri;
               ResultSet := None |} in
  match wResultSet ri with
  | Some rows =>
    Rirs <-? decodeRows rows [] ;;
    inl (set_ResultSet (Some Rirs) Ri)
  | None => inl Ri
  end.

Fixpoint decodeResults (results : list responseItem) (Res : list ResponseItem)
  : list ResponseItem + error :=
  match results with
  | [] => inl Res
  | ri :: results =>
    Ri <-? decodeItem ri ;;
    decodeResults results (Res ++ [Ri])
  end.

(** ** client.go: [Send] and [SendWithContext]

    A [*Request] is a location [loc] of the store [heap]; [posted] lists
    the requests handed to [http.Client.Do], oldest first. *)

Definition loc : Type := nat.

Record World : Type := {
  heap : gmap loc Request;
  posted : list HttpRequest
}.

Definition set_heap (v : gmap loc Request) (w : World) : World :=
  {| heap := v; posted := posted w |}.

Definition set_posted (v : list HttpRequest) (w : World) : World :=
  {| heap := heap w; posted := v |}.

Definition http_NewRequestWithContext (ctx : Context_) (method url' : string)
    (body : json) : HttpRequest + error :=
  match http_NewRequest_check ctx method url' with
  | Some e => inr e
  | None => inl {| Method := method; URL := url'; Body := body;
                   BasicAuth := None; Header := [] |}
  end.

Definition SendWithContext (c : Client) (ctx : Context_) (r : loc) (w : World)
  : outcome (World * (option Response * Z * option error)) :=
  match heap w !! r with
  | None => Panics
  | Some R =>
    let R :=
      if decide (authMode (builder c) = AUTH_MODE_INLINE) then
        {| req := set_Credentials
                    (Some {| User := user (builder c);
                             Password := password (builder c) |}) (req R) |}
      else R in
    let w :=
      if decide (authMode (builder c) = AUTH_MODE_INLINE) then
        set_heap (<[r := R]> (heap w)) w
      else w in
    match json_Marshal (req R) with
    | inr e => Returns (w, (None, 0, Some e))
    | inl jsonData =>
      match http_NewRequestWithContext ctx "POST" (url (builder c)) jsonData with
      | inr e => Returns (w, (None, 0, Some e))
      | inl post =>
        let post :=
          if decide (authMode (builder c) = AUTH_MODE_HTTP) then
            SetBasicAuth (user (builder c)) (password (builder c)) post
          else post in
        let post := Header_Add "Content-Type" "application/json" post in
        let w := set_posted (posted w ++ [post]) w in
        match client_Do ctx post with
        | inr e => Returns (w, (None, 0, Some e))
        | inl resp =>
          match ReadAll_Body resp with
          | inr e => Returns (w, (None, StatusCode resp, Some e))
          | inl body =>
            if decide (StatusCode resp <> 200) then
              let wserr := WsError_zero in
              let '(wserr, e) := json_Unmarshal_WsError body wserr in
              let wserr :=
                match e with
                | Some _ => set_Msg body (set_RequestIdx (-1) wserr)
                | None => wserr
                end in
              let wserr := set_Code (StatusCode resp) wserr in
              Returns (w, (None, StatusCode resp, Some (error_WsError wserr)))
            else
              match json_Unmarshal_response body with
              | inr e => Returns (w, (None, StatusCode resp, Some e))
              | inl res =>
                match decodeResults (wResults res) [] with
                | inr e => Returns (w, (None, StatusCode resp, Some e))
                | inl Res =>
                  Returns (w, (Some {| Results := Res |}, StatusCode resp, None))
                end
              end
          end
        end
      end
    end
  end.

Definition Send (c : Client) (r : loc) (w : World)
  : outcome (World * (option Response * Z * option error)) :=
  SendWithContext c context_Background r w.

(** ** Chains of builder calls *)

Inductive call : Type :=
  | CAddQuery (query : string)
  | CAddStatement (statement : string)
  | CWithNoFail
  | CWithValues (values : option (gmap string any))
  | CWithEncoderAndCompression (password : string) (compressionLevel : Z)
      (fields : list string)
  | CWithEncoder (password : string) (fields : list string)
  | CWithDecoder (password : string) (fields : list string).

Definition invoke (c : call) (rb : RequestBuilder) : outcome RequestBuilder :=
  match c with
  | CAddQuery q => AddQuery q rb
  | CAddStatement s => AddStatement s rb
  | CWithNoFail => WithNoFail rb
  | CWithValues v => WithValues v rb
  | CWithEncoderAndCompression p l f => WithEncoderAndCompression p l f rb
  | CWithEncoder p f => WithEncoder p f rb
  | CWithDecoder p f => WithDecoder p f rb
  end.

(** [rb.c1(..).c2(..)...]: each call receives the builder the previous
    one returned; a panic ends the chain. *)
Fixpoint chain (cs : list call) (rb : RequestBuilder) : outcome RequestBuilder :=
  match cs with
  | [] => Returns rb
  | c :: cs => rb <~ invoke c rb ;; chain cs rb
  end.

(** The pair [Build] hands to the caller at the end of a chain. *)
Definition chain_Build (cs : list call) (rb : RequestBuilder)
  : outcome (option Request * option error) :=
  rb <~ chain cs rb ;;
  out <~ Build rb ;;
  Returns (snd out).

(** ** Vocabulary of the statements about chains *)

(** An item is open or an error is latched. *)
Definition settled (rb : RequestBuilder) : Prop :=
  err rb <> "" \/ temp rb <> None.

(** The items a builder holds, in the order [Build] would emit them:
    the flushed ones, then the open one. *)
Definition items (rb : RequestBuilder) : list requestItem :=
  Transaction (list_ rb) ++ option_list (temp rb).

(** The two text fields of an item, and what an adding call puts there. *)
Definition sql_text (t : requestItem) : string * string :=
  (Query t, Statement t).

Definition added (c : call) : list (string * string) :=
  match c with
  | CAddQuery q => [(q, "")]
  | CAddStatement s => [("", s)]
  | _ => []
  end.

Definition adds (cs : list call) : list (string * string) :=
  concat (added <$> cs).

(** ** Vocabulary of the statements about decoding *)

(** A decoded row has the columns of the wire row, each holding the
    decoded cell. *)
Definition row_decoded (row : gmap string RawMessage) (Rirsi : gmap string any) : Prop :=
  forall k,
    match row !! k with
    | Some v => exists v2, json_Unmarshal_any v = inl v2 /\ Rirsi !! k = Some v2
    | None => Rirsi !! k = None
    end.

Definition item_decoded (ri : responseItem) (Ri : ResponseItem) : Prop :=
  Success Ri = wSuccess ri
  /\ Error Ri = wError ri
  /\ RowsUpdated Ri = wRowsUpdated ri
  /\ RowsUpdatedBatch Ri = wRowsUpdatedBatch ri
  /\ match wResultSet ri with
     | None => ResultSet Ri = None
     | Some rows => exists Rirs, ResultSet Ri = Some Rirs /\ Forall2 row_decoded rows Rirs
     end.

Definition cells_decode (results : list responseItem) : Prop :=
  forall ri rows row k v,
    ri ∈ results -> wResultSet ri = Some rows -> row ∈ rows -> row !! k = Some v ->
    exists v2, json_Unmarshal_any v = inl v2.

(** How many of the four outcome fields are populated (non-empty
    [Error], non-nil [RowsUpdated], [RowsUpdatedBatch], [ResultSet]). *)
Definition count_if (b : bool) : nat := if b then 1%nat else 0%nat.

Definition populated (Ri : ResponseItem) : nat :=
  (count_if (bool_decide (Error Ri <> ""))
   + count_if (negb (is_nil (RowsUpdated Ri)))
   + count_if (negb (is_nil (RowsUpdatedBatch Ri)))
   + count_if (negb (is_nil (ResultSet Ri))))%nat.

Definition wire_populated (ri : responseItem) : nat :=
  (count_if (bool_decide (wError ri <> ""))
   + count_if (negb (is_nil (wRowsUpdated ri)))
   + count_if (negb (is_nil (wRowsUpdatedBatch ri)))
   + count_if (negb (is_nil (wResultSet ri))))%nat.

End Model.

(** * Further parts of the package *)

(** ** client.go: URLs from components

    [fmt.Sprintf] with [%s] writes the string and with [%d] the decimal
    digits of the [int], with a leading [-] when negative, which is what
    [pretty] does on [Z]. *)

Definition Protocol : Type := string.
Definition PROTOCOL_HTTP : Protocol := "http".
Definition PROTOCOL_HTTPS : Protocol := "https".

Definition WithURLComponents (protocol : Protocol) (host : string) (port : Z)
    (databaseId : string) (cb : ClientBuilder) : ClientBuilder :=
  {| url := protocol +:+ "://" +:+ host +:+ ":" +:+ pretty port +:+ "/" +:+ databaseId;
     authMode := authMode cb; user := user cb; password := password cb |}.

Definition WithURLComponentsNoPort (protocol : Protocol) (host : string)
    (databaseId : string) (cb : ClientBuilder) : ClientBuilder :=
  {| url := protocol +:+ "://" +:+ host +:+ "/" +:+ databaseId;
     authMode := authMode cb; user := user cb; password := password cb |}.

(** Chains of client-builder calls. *)
Inductive cbcall : Type :=
  | CWithURL (url : string)
  | CWithURLComponents (protocol : Protocol) (host : string) (port : Z)
      (databaseId : string)
  | CWithURLComponentsNoPort (protocol : Protocol) (host : string)
      (databaseId : string)
  | CWithInlineAuth (user password : string)
  | CWithHTTPAuth (user password : string).

Definition cbinvoke (c : cbcall) (cb : ClientBuilder) : ClientBuilder :=
  match c with
  | CWithURL u => WithURL u cb
  | CWithURLComponents p h n d => WithURLComponents p h n d cb
  | CWithURLComponentsNoPort p h d => WithURLComponentsNoPort p h d cb
  | CWithInlineAuth u p => WithInlineAuth u p cb
  | CWithHTTPAuth u p => WithHTTPAuth u p cb
  end.

Definition configure (cs : list cbcall) (cb : ClientBuilder) : ClientBuilder :=
  foldl (fun cb c => cbinvoke c cb) cb cs.

Definition is_auth_call (c : cbcall) : bool :=
  match c with
  | CWithInlineAuth _ _ | CWithHTTPAuth _ _ => true
  | _ => false
  end.

(** ** client.go: [WsError.Error], and [Error] of the other errors *)

Definition WsError_Error (m : WsError) : string := Msg m.

Definition error_Error (e : error) : string :=
  match e with
  | errors_New msg => msg
  | error_WsError m => WsError_Error m
  | error_lib _ msg => msg
  end.

Section Shapes.

Context {any : Type}.

(** What the checks of the builder guarantee of one item. *)
Definition item_well_formed (t : @requestItem any) : Prop :=
  (Query t = "" \/ Statement t = "")
  /\ (Values t = None \/ ValuesBatch t = None)
  /\ (forall batch, ValuesBatch t = Some batch ->
        Query t = "" /\ (2 <= length batch)%nat)
  /\ (forall e, Encoder t = Some e ->
        Query t = "" /\ Fields e <> []
        /\ (CompressionLevel e = 0 \/ 1 <= CompressionLevel e <= 19))
  /\ (forall d, Decoder t = Some d ->
        Statement t = "" /\ Fields d <> [] /\ CompressionLevel d = 0).

(** The keys of a marshalled item, read off the struct tags. *)
Definition item_has_key (t : @requestItem any) (key : string) : Prop :=
  (key = "query" /\ Query t <> "")
  \/ (key = "statement" /\ Statement t <> "")
  \/ (key = "noFail" /\ NoFail t = true)
  \/ (key = "values" /\ exists m, Values t = Some m /\ m <> ∅)
  \/ (key = "valuesBatch" /\ exists ms, ValuesBatch t = Some ms /\ ms <> [])
  \/ (key = "encoder" /\ Encoder t <> None)
  \/ (key = "decoder" /\ Decoder t <> None).

(** The values bound to an item, single or batched. *)
Definition bound_values (t : @requestItem any) : list any :=
  (default [] ((fun m => (map_to_list m).*2) <$> Values t))
  ++ concat ((fun m => (map_to_list m).*2) <$> default [] (ValuesBatch t)).

End Shapes.

(** * Worked inputs

    Dynamic values as the tests use them, and a transport that answers
    every request with one scripted status and body. The scripted JSON
    decoders know the bodies and cells listed in the script and reject
    any other text. *)

Inductive dyn : Type :=
  | dyn_nil
  | dyn_int (n : Z)
  | dyn_string (s : string).

Definition dyn_Marshal (v : dyn) : json + error :=
  inl match v with
      | dyn_nil => JNull
      | dyn_int n => JNum n
      | dyn_string s => JStr s
      end.

Fixpoint assoc {A : Type} (key : string) (table : list (string * A)) : option A :=
  match table with
  | [] => None
  | (k, a) :: table => if decide (k = key) then Some a else assoc key table
  end.

Record Script : Type := {
  answer_status : Z;
  answer_body : string;
  error_bodies : list (string * WsError);
  response_bodies : list (string * response);
  cells : list (RawMessage * dyn)
}.

Definition syntax_error : error := error_lib "json" "invalid character".

Definition scripted (s : Script) : Runtime dyn :=
  {| Context_ := unit;
     context_Background := tt;
     json_Marshal_any := dyn_Marshal;
     http_NewRequest_check := fun _ _ _ => None;
     client_Do := fun _ _ =>
       inl {| StatusCode := answer_status s; ReadAll_Body := inl (answer_body s) |};
     json_Unmarshal_WsError := fun body target =>
       match assoc body (error_bodies s) with
       | Some w => (w, None)
       | None => (target, Some syntax_error)
       end;
     json_Unmarshal_response := fun body =>
       match assoc body (response_bodies s) with
       | Some res => inl res
       | None => inr syntax_error
       end;
     json_Unmarshal_any := fun raw =>
       match assoc raw (cells s) with
       | Some v => inl v
       | None => inr syntax_error
       end |}.

(** The double quote, and a quoted JSON string. *)
Definition dq : string := String (Ascii.ascii_of_nat 34) "".
Definition quoted (s : string) : string := dq +:+ s +:+ dq.

(** The builder chain of the tests and of the README. *)
Definition test_calls : list (@call dyn) :=
  [ CAddQuery "SELECT * FROM TEMP";
    CAddQuery "SELECT * FROM TEMP WHERE ID = :id ORDER BY ID ASC";
    CWithValues (Some {[ "id" := dyn_int 1 ]});
    CAddStatement "INSERT INTO TEMP (ID, VAL) VALUES (0, 'ZERO')";
    CAddStatement "INSERT INTO TEMP (ID, VAL) VALUES (:id, :val)";
    CWithNoFail;
    CWithValues (Some (<[ "id" := dyn_int 1 ]> {[ "val" := dyn_string "a" ]}));
    CAddStatement "INSERT INTO TEMP (ID, VAL) VALUES (:id, :val)";
    CWithValues (Some (<[ "id" := dyn_int 2 ]> {[ "val" := dyn_string "b" ]}));
    CWithValues (Some (<[ "id" := dyn_int 3 ]> {[ "val" := dyn_string "c" ]})) ].

(** The request of [TestError], as [Build] returns it. *)
Definition error_request : @Request dyn :=
  {| req := {| Credentials := None;
               Transaction := [set_Query "SELENCT * FROM TEMP" requestItem_zero] |} |}.

Definition inline_client : Client :=
  {| builder := WithInlineAuth "myUser1" "myHotPassword"
                  (WithURL "http://localhost:12321/mydb2" NewClientBuilder) |}.

Definition http_client : Client :=
  {| builder := WithHTTPAuth "myUser1" "myHotPassword"
                  (WithURL "http://localhost:12321/mydb" NewClientBuilder) |}.

Definition plain_client : Client :=
  {| builder := WithURL "http://localhost:12321/mydb3" NewClientBuilder |}.

(** A store holding [error_request] at location 0, nothing posted yet. *)
Definition world0 : @World dyn :=
  {| heap := {[ 0%nat := error_request ]}; posted := [] |}.

(** A 500 answer with a structured error body. *)
Definition body500 : string :=
  "{" +:+ quoted "qryIdx" +:+ ":0," +:+ quoted "error" +:+ ":"
      +:+ quoted "near SELENCT: syntax error" +:+ "}".

Definition script500 : Script :=
  {| answer_status := 500;
     answer_body := body500;
     error_bodies :=
       [(body500, {| RequestIdx := 0; Msg := "near SELENCT: syntax error"; Code := 0 |})];
     response_bodies := [];
     cells := [] |}.

(** A 200 answer with a result set and a row count. *)
Definition results200 : list responseItem :=
  [ {| wSuccess := true; wRowsUpdated := None; wRowsUpdatedBatch := None;
       wResultSet := Some [ <[ "ID" := "1" ]> {[ "VAL" := quoted "ONE" ]} ];
       wError := "" |};
    {| wSuccess := true; wRowsUpdated := Some 1; wRowsUpdatedBatch := None;
       wResultSet := None; wError := "" |} ].

Definition body200 : string :=
  "{" +:+ quoted "results" +:+ ":[{" +:+ quoted "success" +:+ ":true,"
      +:+ quoted "resultSet" +:+ ":[{" +:+ quoted "ID" +:+ ":1,"
      +:+ quoted "VAL" +:+ ":" +:+ quoted "ONE" +:+ "}]},{"
      +:+ quoted "success" +:+ ":true," +:+ quoted "rowsUpdated" +:+ ":1}]}".

Definition script200 : Script :=
  {| answer_status := 200;
     answer_body := body200;
     error_bodies := [];
     response_bodies :=
       [(body200,
         {| wResults := results200 |})];
     cells := [("1", dyn_int 1); (quoted "ONE", dyn_string "ONE")] |}.

(** A 200 answer whose first result has no outcome field and whose
    second has two. *)
Definition body200_odd : string :=
  "{" +:+ quoted "results" +:+ ":[{" +:+ quoted "success" +:+ ":true},{"
      +:+ quoted "success" +:+ ":false," +:+ quoted "error" +:+ ":"
      +:+ quoted "constraint failed" +:+ "," +:+ quoted "rowsUpdated" +:+ ":0}]}".

Definition script200_odd : Script :=
  {| answer_status := 200;
     answer_body := body200_odd;
     error_bodies := [];
     response_bodies :=
       [(body200_odd,
         {| wResults :=
              [ {| wSuccess := true; wRowsUpdated := None; wRowsUpdatedBatch := None;
                   wResultSet := None; wError := "" |};
                {| wSuccess := false; wRowsUpdated := Some 0; wRowsUpdatedBatch := None;
                   wResultSet := None; wError := "constraint failed" |} ] |})];
     cells := [] |}.

(** Builders with one open item, as [AddQuery] and [AddStatement] leave
    a new builder. *)
Definition query_builder : @RequestBuilder dyn :=
  set_temp (Some (set_Query "SELECT * FROM TEMP" requestItem_zero)) NewRequestBuilder.

Definition statement_builder : @RequestBuilder dyn :=
  set_temp (Some (set_Statement "INSERT INTO TEMP (ID, VAL) VALUES (:id, :val)"
                    requestItem_zero)) NewRequestBuilder.

Definition row_a : gmap string dyn := <[ "id" := dyn_int 1 ]> {[ "val" := dyn_string "a" ]}.
Definition row_b : gmap string dyn := <[ "id" := dyn_int 2 ]> {[ "val" := dyn_string "b" ]}.
Definition row_c : gmap string dyn := <[ "id" := dyn_int 3 ]> {[ "val" := dyn_string "c" ]}.

Definition test_credentials : credentials :=
  {| User := "myUser1"; Password := "myHotPassword" |}.

(** ** Further worked inputs *)

(** Dynamic values that include one [encoding/json] refuses. *)
Inductive goval : Type :=
  | goval_dyn (d : dyn)
  | goval_chan.

Definition goval_Marshal (v : goval) : json + error :=
  match v with
  | goval_dyn d => dyn_Marshal d
  | goval_chan => inr (error_lib "json" "unsupported type: chan int")
  end.

Definition scripted_go (s : Script) : Runtime goval :=
  {| Context_ := unit;
     context_Background := tt;
     json_Marshal_any := goval_Marshal;
     http_NewRequest_check := fun _ _ _ => None;
     client_Do := fun _ _ =>
       inl {| StatusCode := answer_status s; ReadAll_Body := inl (answer_body s) |};
     json_Unmarshal_WsError := fun body target =>
       match assoc body (error_bodies s) with
       | Some w => (w, None)
       | None => (target, Some syntax_error)
       end;
     json_Unmarshal_response := fun body =>
       match assoc body (response_bodies s) with
       | Some res => inl res
       | None => inr syntax_error
       end;
     json_Unmarshal_any := fun raw =>
       match assoc raw (cells s) with
       | Some v => inl (goval_dyn v)
       | None => inr syntax_error
       end |}.

(** A request that binds a channel, stored at location 0. *)
Definition chan_item : @requestItem goval :=
  set_Values (Some {[ "id" := goval_chan ]})
    (set_Statement "INSERT INTO TEMP (ID) VALUES (:id)" requestItem_zero).

Definition chan_request : @Request goval :=
  {| req := {| Credentials := None; Transaction := [chan_item] |} |}.

Definition chan_world : @World goval :=
  {| heap := {[ 0%nat := chan_request ]}; posted := [] |}.

(** A transport that refuses every connection. *)
Definition connection_refused : error := error_lib "net/http" "connection refused".

Definition offline : Runtime dyn :=
  {| Context_ := unit;
     context_Background := tt;
     json_Marshal_any := dyn_Marshal;
     http_NewRequest_check := fun _ _ _ => None;
     client_Do := fun _ _ => inr connection_refused;
     json_Unmarshal_WsError := fun body target => (target, Some syntax_error);
     json_Unmarshal_response := fun body => inr syntax_error;
     json_Unmarshal_any := fun raw => inr syntax_error |}.

(** The request that [TestError] posts with [http_client]. *)
Definition error_post : HttpRequest :=
  {| Method := "POST";
     URL := "http://localhost:12321/mydb";
     Body := JObj {[ "transaction" :=
                       JArr [JObj {[ "query" := JStr "SELENCT * FROM TEMP" ]}] ]};
     BasicAuth := Some ("myUser1", "myHotPassword");
     Header := [("Content-Type", "application/json")] |}.

(** The 200 answer of [script200] with no decoder for its cells. *)
Definition script200_raw : Script :=
  {| answer_status := 200;
     answer_body := body200;
     error_bodies := [];
     response_bodies := [(body200, {| wResults := results200 |})];
     cells := [] |}.

(** * Properties of the request builder *)

(** Discharges [~ (x <> y)] and [~ (x <> y /\ _)] side conditions from
    an equation [x = y] in the context. *)
Ltac not_ne :=
  let H := fresh in
  intros H; first [ by apply H | by destruct H as [H _]; apply H ].

Section BuilderProperties.

Context {any : Type}.

Implicit Types (rb : @RequestBuilder any) (t : @requestItem any).
Implicit Types (c : @call any) (cs : list (@call any)).

(** ** The latch *)

Lemma invoke_latched c rb : err rb <> "" -> invoke c rb = Returns rb.
Proof.
  intros Herr.
  destruct c; simpl;
    unfold AddQuery, AddStatement, WithNoFail, WithValues,
      WithEncoderAndCompression, WithEncoder, WithDecoder;
    case_decide; done.
Qed.

Lemma chain_latched cs rb : err rb <> "" -> chain cs rb = Returns rb.
Proof.
  intros Herr. induction cs as [|c cs IH]; simpl; [done|].
  by rewrite invoke_latched.
Qed.

Lemma assign_temp_Some (f : @requestItem any -> @requestItem any) rb t :
  temp rb = Some t -> assign_temp f rb = Returns (set_temp (Some (f t)) rb).
Proof. intros Ht. unfold assign_temp. by rewrite Ht. Qed.

(** A call that leaves the builder with an error either found it there
    or only wrote [rb.err]. *)
Lemma invoke_error_frame c rb rb' :
  err rb = "" -> invoke c rb = Returns rb' -> err rb' <> "" ->
  list_ rb' = list_ rb /\ temp rb' = temp rb.
Proof.
  intros Herr Hinv Herr'.
  destruct c; simpl in Hinv;
    unfold AddQuery, AddStatement, WithNoFail, WithValues,
      WithEncoderAndCompression, WithEncoder, WithDecoder,
      assign_temp, flush_temp, obind in Hinv;
    repeat (case_decide || case_match || simplify_eq/= || done).
Qed.

(** ** Calls made before any item is open *)

(** C2. Build-time failures are meant to be reported by [Build] and no
    builder call should panic; yet the item-configuring calls read
    [rb.temp] without the nil test that [Build] makes, so on a builder
    that has no open item [WithNoFail], [WithValues] with a non-nil
    mapping, and the encoder and decoder calls with acceptable arguments
    panic at the call itself, while [Build] on that builder returns an
    error value. *)
Theorem configuring_before_add_panics :
  invoke (any:=any) CWithNoFail NewRequestBuilder = Panics
  /\ (forall m, invoke (any:=any) (CWithValues (Some m)) NewRequestBuilder = Panics)
  /\ (forall p f fs,
        invoke (any:=any) (CWithEncoderAndCompression p 1 (f :: fs)) NewRequestBuilder
          = Panics
        /\ invoke (any:=any) (CWithEncoder p (f :: fs)) NewRequestBuilder = Panics
        /\ invoke (any:=any) (CWithDecoder p (f :: fs)) NewRequestBuilder = Panics)
  /\ chain_Build (any:=any) [] NewRequestBuilder
       = Returns (None, Some (errors_New "There are no requests")).
Proof. repeat split. Qed.

(** With an item open, or an error latched, no call panics. *)

Lemma invoke_settled c rb :
  settled rb -> exists rb', invoke c rb = Returns rb' /\ settled rb'.
Proof.
  intros [Herr|Ht].
  - exists rb. split; [by apply invoke_latched | by left].
  - destruct (temp rb) as [t|] eqn:Et; [clear Ht | done].
    destruct c; simpl;
      unfold AddQuery, AddStatement, WithNoFail, WithValues,
        WithEncoderAndCompression, WithEncoder, WithDecoder,
        assign_temp, flush_temp, obind; rewrite ?Et; simpl;
      repeat (case_decide || case_match || simplify_eq/=);
      eexists; (split; [reflexivity|]); unfold settled; simpl;
      rewrite ?Et; solve [ by right | by left ].
Qed.

Lemma chain_settled cs rb :
  settled rb -> exists rb', chain cs rb = Returns rb' /\ settled rb'.
Proof.
  revert rb. induction cs as [|c cs IH]; intros rb Hs; simpl.
  - by exists rb.
  - destruct (invoke_settled c rb Hs) as (rb1 & -> & Hs1). simpl. by apply IH.
Qed.

(** A chain that opens an item first never panics. *)
Lemma chain_after_add_returns c cs :
  (exists q, c = CAddQuery q) \/ (exists s, c = CAddStatement s) ->
  exists rb', chain (c :: cs) (NewRequestBuilder (any:=any)) = Returns rb'.
Proof.
  intros Hc. cbn [chain].
  assert (exists rb1, invoke c (NewRequestBuilder (any:=any)) = Returns rb1
                      /\ settled rb1) as (rb1 & -> & Hs).
  { destruct Hc as [[q ->]|[s ->]]; eexists; (split; [reflexivity|]); by right. }
  simpl. destruct (chain_settled cs rb1 Hs) as (rb' & ? & _). by exists rb'.
Qed.

Lemma Build_returns rb :
  exists rb' out, Build rb = Returns (rb', out).
Proof.
  unfold Build. destruct (temp rb) as [t|] eqn:Et; simpl.
  - case_decide; rewrite ?Et; eauto.
  - eauto.
Qed.

(** ** C4: the latch and what [Build] reports *)

Lemma Build_latched rb :
  err rb <> "" ->
  (temp rb <> None ->
     Build rb = Returns (rb, (None, Some (errors_New (err rb)))))
  /\ (temp rb = None ->
     Build rb = Returns (set_err "There are no requests" rb,
                         (None, Some (errors_New "There are no requests")))).
Proof.
  intros Herr. unfold Build. split; intros Ht.
  - destruct (temp rb) as [t|] eqn:Et; [simpl | done].
    by rewrite decide_True.
  - rewrite Ht. simpl. reflexivity.
Qed.

(** C4 (amended). A call that fails on an error-free builder writes a
    non-empty [rb.err] and nothing else; from then on every chain of
    builder calls returns the builder unchanged; [Build] then returns
    that first error when an item is open, and the error
    "There are no requests" in its place when no item was ever added. *)
Theorem latched_error_policy c rb rb' :
  err rb = "" -> invoke c rb = Returns rb' -> err rb' <> "" ->
  (list_ rb' = list_ rb /\ temp rb' = temp rb)
  /\ (forall cs, chain cs rb' = Returns rb')
  /\ (temp rb' <> None ->
        forall cs, chain_Build cs rb' = Returns (None, Some (errors_New (err rb'))))
  /\ (temp rb' = None ->
        forall cs, chain_Build cs rb'
                   = Returns (None, Some (errors_New "There are no requests"))).
Proof.
  intros Herr Hinv Herr'. split; [by eapply invoke_error_frame|].
  split; [intros cs; by apply chain_latched|].
  destruct (Build_latched rb' Herr') as [Hopen Hnone].
  split; intros Ht cs; unfold chain_Build; rewrite chain_latched by done; simpl.
  - by rewrite Hopen.
  - by rewrite Hnone.
Qed.

(** ** C7, C6: [WithValues] *)

Lemma invoke_AddStatement s rb :
  err rb = "" ->
  invoke (CAddStatement s) rb
  = Returns (set_temp (Some (set_Statement s requestItem_zero)) (flush_temp rb)).
Proof. intros Herr. simpl. unfold AddStatement. by rewrite decide_False by not_ne. Qed.

Lemma invoke_AddQuery q rb :
  err rb = "" ->
  invoke (CAddQuery q) rb
  = Returns (set_temp (Some (set_Query q requestItem_zero)) (flush_temp rb)).
Proof. intros Herr. simpl. unfold AddQuery. by rewrite decide_False by not_ne. Qed.

Lemma err_flush_temp rb : err (flush_temp rb) = err rb.
Proof. unfold flush_temp. by destruct (temp rb). Qed.

(** On an item whose [Query] is empty every non-nil mapping is taken. *)
Lemma WithValues_not_query rb t m :
  err rb = "" -> temp rb = Some t -> Query t = "" ->
  exists t', WithValues (Some m) rb = Returns (set_temp (Some t') rb)
             /\ Query t' = "".
Proof.
  intros Herr Ht Hq. unfold WithValues.
  rewrite decide_False by not_ne. rewrite Ht.
  rewrite decide_False by (intros [? _]; done).
  unfold assign_temp, obind. rewrite Ht.
  destruct (ValuesBatch t), (Values t); simpl; eexists; split; done.
Qed.

Lemma chain_WithValues_not_query (ms : list (gmap string any)) rb t :
  err rb = "" -> temp rb = Some t -> Query t = "" ->
  exists rb', chain (CWithValues <$> (Some <$> ms)) rb = Returns rb' /\ err rb' = "".
Proof.
  revert rb t. induction ms as [|m ms IH]; intros rb t Herr Ht Hq; simpl.
  - by exists rb.
  - destruct (WithValues_not_query rb t m Herr Ht Hq) as (t' & -> & Hq'). simpl.
    by apply (IH _ t').
Qed.

(** C7. On a builder without latched error, [WithValues] latches an
    error exactly when the mapping is nil or the open item is a query
    (its [Query] is non-empty) that already has [Values] or
    [ValuesBatch]; after [AddStatement], any number of [WithValues]
    calls with non-nil mappings goes through without error. *)
Theorem WithValues_error_iff rb (values : option (gmap string any)) :
  err rb = "" ->
  ((exists rb', WithValues values rb = Returns rb' /\ err rb' <> "")
   <-> (values = None
        \/ exists t, temp rb = Some t /\ Query t <> ""
                     /\ (Values t <> None \/ ValuesBatch t <> None)))
  /\ (forall s (ms : list (gmap string any)),
        exists rb', chain (CAddStatement s :: (CWithValues <$> (Some <$> ms))) rb
                    = Returns rb' /\ err rb' = "").
Proof.
  intros Herr. split.
  - unfold WithValues. rewrite decide_False by not_ne.
    destruct values as [vals|].
    + destruct (temp rb) as [t|] eqn:Et.
      * case_decide as Hq.
        -- split; [intros _; right; by exists t|].
           intros _. eexists. split; [reflexivity|]. done.
        -- split.
           ++ intros (rb' & Hret & Herr'). exfalso.
              unfold assign_temp, obind in Hret. rewrite Et in Hret.
              repeat case_match; simplify_eq/=; done.
           ++ intros [?|(t' & ? & ?)]; [done|]. simplify_eq. done.
      * split; [intros (? & ? & ?); done|].
        intros [?|(t' & ? & ?)]; done.
    + split; [intros _; by left|]. intros _. eexists. split; [reflexivity|]. done.
  - intros s ms. cbn [chain]. rewrite invoke_AddStatement by done. simpl.
    eapply chain_WithValues_not_query; simpl; [by rewrite err_flush_temp| |]; done.
Qed.

(** A chain that ends without error went through without error. *)
Lemma chain_cons_ok c cs rb rb' :
  chain (c :: cs) rb = Returns rb' -> err rb' = "" ->
  exists rb1, invoke c rb = Returns rb1 /\ err rb1 = "" /\ chain cs rb1 = Returns rb'.
Proof.
  simpl. intros Hch Herr'. destruct (invoke c rb) as [rb1|] eqn:Hinv; [simpl in Hch|done].
  exists rb1. split; [done|]. split; [|done].
  destruct (decide (err rb1 = "")) as [|Hne]; [done|].
  rewrite chain_latched in Hch by done. by simplify_eq.
Qed.

Lemma WithValues_ok_step rb rb1 t (v : option (gmap string any)) :
  err rb = "" -> temp rb = Some t ->
  WithValues v rb = Returns rb1 -> err rb1 = "" ->
  exists m, v = Some m /\
    rb1 = set_temp
            (Some match ValuesBatch t with
                  | Some batch => set_ValuesBatch (Some (batch ++ [m])) t
                  | None =>
                    match Values t with
                    | Some first => set_Values None (set_ValuesBatch (Some [first; m]) t)
                    | None => set_Values (Some m) t
                    end
                  end) rb.
Proof.
  intros Herr Ht Hret Herr1. unfold WithValues in Hret.
  rewrite decide_False in Hret by not_ne.
  destruct v as [m|]; [|by simplify_eq].
  rewrite Ht in Hret. case_decide; [by simplify_eq|].
  exists m. split; [done|].
  unfold assign_temp, obind in Hret. rewrite Ht in Hret.
  destruct (ValuesBatch t), (Values t); simpl in Hret; by simplify_eq.
Qed.

Lemma chain_WithValues_batch (vs : list (option (gmap string any))) rb rb' t batch :
  err rb = "" -> temp rb = Some t -> ValuesBatch t = Some batch ->
  chain (CWithValues <$> vs) rb = Returns rb' -> err rb' = "" ->
  exists ms, vs = Some <$> ms /\ list_ rb' = list_ rb
             /\ temp rb' = Some (set_ValuesBatch (Some (batch ++ ms)) t).
Proof.
  revert rb t batch. induction vs as [|v vs IH]; intros rb t batch Herr Ht Hb Hch Herr'.
  - simpl in Hch. simplify_eq. exists []. rewrite app_nil_r.
    split; [done|]. split; [done|].
    rewrite Ht. f_equal. destruct t; simpl in *. by subst.
  - rewrite fmap_cons in Hch.
    destruct (chain_cons_ok _ _ _ _ Hch Herr') as (rb1 & Hinv & Herr1 & Hrest).
    destruct (WithValues_ok_step rb rb1 t v Herr Ht Hinv Herr1) as (m & -> & ->).
    rewrite Hb in Hrest. clear Herr1.
    destruct (IH (set_temp (Some (set_ValuesBatch (Some (batch ++ [m])) t)) rb)
                (set_ValuesBatch (Some (batch ++ [m])) t)
                (batch ++ [m]) Herr eq_refl eq_refl Hrest Herr')
      as (ms & -> & Hl & Hte).
    exists (m :: ms). split; [done|]. split; [done|].
    rewrite Hte. f_equal. unfold set_ValuesBatch; simpl. by rewrite <- app_assoc.
Qed.

Lemma WithValues_stages_ok (vs : list (option (gmap string any))) rb rb' t :
  err rb = "" -> temp rb = Some t -> Values t = None -> ValuesBatch t = None ->
  chain (CWithValues <$> vs) rb = Returns rb' -> err rb' = "" ->
  exists ms, vs = Some <$> ms
    /\ list_ rb' = list_ rb
    /\ temp rb' = Some match ms with
                       | [] => t
                       | [m] => set_Values (Some m) t
                       | _ => set_Values None (set_ValuesBatch (Some ms) t)
                       end.
Proof.
  intros Herr Ht Hv Hb Hch Herr'.
  destruct vs as [|v1 vs].
  { simpl in Hch. simplify_eq. by exists []. }
  rewrite fmap_cons in Hch.
  destruct (chain_cons_ok _ _ _ _ Hch Herr') as (rb1 & Hinv & Herr1 & Hrest).
  destruct (WithValues_ok_step rb rb1 t v1 Herr Ht Hinv Herr1) as (m1 & -> & ->).
  rewrite Hb, Hv in Hrest. clear Hch Hinv Herr1.
  destruct vs as [|v2 vs].
  { simpl in Hrest. simplify_eq. by exists [m1]. }
  rewrite fmap_cons in Hrest.
  destruct (chain_cons_ok _ _ _ _ Hrest Herr') as (rb2 & Hinv & Herr2 & Hrest2).
  destruct (WithValues_ok_step (set_temp (Some (set_Values (Some m1) t)) rb)
              rb2 (set_Values (Some m1) t) v2 Herr eq_refl Hinv Herr2)
    as (m2 & -> & ->).
  simpl in Hrest2. rewrite Hb in Hrest2. simpl in Hrest2. clear Herr2.
  destruct (chain_WithValues_batch vs
              (set_temp (Some (set_Values None
                 (set_ValuesBatch (Some [m1; m2]) (set_Values (Some m1) t))))
                 (set_temp (Some (set_Values (Some m1) t)) rb))
              rb'
              (set_Values None
                 (set_ValuesBatch (Some [m1; m2]) (set_Values (Some m1) t)))
              [m1; m2] Herr eq_refl eq_refl Hrest2 Herr')
    as (ms & -> & Hl & Hte).
  exists (m1 :: m2 :: ms). by repeat split.
Qed.

(** C6. On an open item without bindings, [WithValues] calls that go
    through without error leave: after one call the mapping in
    [Values]; after the second a two-element [ValuesBatch] with both
    mappings in call order and [Values] nil; after every further call
    the batch with the new mapping at its end. So after [k >= 2] such
    calls the batch holds the [k] mappings in call order and [Values] is
    nil. Nothing else of the builder changes. On an item that is not a
    query, calls with non-nil mappings do all go through. *)
Theorem WithValues_stages rb t :
  err rb = "" -> temp rb = Some t -> Values t = None -> ValuesBatch t = None ->
  (forall (vs : list (option (gmap string any))) rb',
     chain (CWithValues <$> vs) rb = Returns rb' -> err rb' = "" ->
     exists ms, vs = Some <$> ms
       /\ list_ rb' = list_ rb
       /\ temp rb' = Some match ms with
                          | [] => t
                          | [m] => set_Values (Some m) t
                          | _ => set_Values None (set_ValuesBatch (Some ms) t)
                          end)
  /\ (Query t = "" ->
      forall ms : list (gmap string any),
        exists rb', chain (CWithValues <$> (Some <$> ms)) rb = Returns rb'
                    /\ err rb' = "").
Proof.
  intros Herr Ht Hv Hb. split.
  - intros vs rb'. by apply WithValues_stages_ok.
  - intros Hq ms. by apply (chain_WithValues_not_query ms rb t).
Qed.

(** ** C9: [WithEncoderAndCompression] *)

(** C9. On a builder without latched error,
    [WithEncoderAndCompression] latches an error exactly when the level
    is below 1 or above 19, or the fields list is empty, or the open
    item is a query (its [Query] is non-empty); when an item is open and
    none of these holds, the encoder is attached to it. In particular,
    right after [AddStatement] and with a non-empty fields list, levels
    0 and 20 latch an error and levels 1 and 19 do not. *)
Theorem WithEncoderAndCompression_error_iff rb password level fields :
  err rb = "" ->
  ((exists rb', WithEncoderAndCompression password level fields rb = Returns rb'
                /\ err rb' <> "")
   <-> (level < 1 \/ level > 19 \/ fields = []
        \/ exists t, temp rb = Some t /\ Query t <> ""))
  /\ (forall t, temp rb = Some t ->
        1 <= level <= 19 -> fields <> [] -> Query t = "" ->
        WithEncoderAndCompression password level fields rb
        = Returns (set_temp (Some (set_Encoder
                     (Some {| cryptoPassword := password;
                              CompressionLevel := level;
                              Fields := fields |}) t)) rb))
  /\ (forall s f fs,
        (forall lvl, lvl = 0 \/ lvl = 20 ->
           exists rb', chain [CAddStatement s;
                              CWithEncoderAndCompression password lvl (f :: fs)] rb
                       = Returns rb' /\ err rb' <> "")
        /\ (forall lvl, lvl = 1 \/ lvl = 19 ->
           exists rb' t', chain [CAddStatement s;
                              CWithEncoderAndCompression password lvl (f :: fs)] rb
                       = Returns rb' /\ err rb' = "" /\ temp rb' = Some t'
                       /\ Encoder t' = Some {| cryptoPassword := password;
                                               CompressionLevel := lvl;
                                               Fields := f :: fs |})).
Proof.
  intros Herr.
  assert (Hlen : Z.of_nat (length fields) <= 0 <-> fields = []).
  { destruct fields; simpl; split; intros; try done; lia. }
  split; [|split].
  - unfold WithEncoderAndCompression. rewrite decide_False by not_ne.
    case_decide as Hlvl.
    { split; [intros _; clear Hlen; lia|].
      intros _. eexists. split; [reflexivity|]. done. }
    case_decide as Hf.
    { split; [intros _; right; right; left; by apply Hlen|].
      intros _. eexists. split; [reflexivity|]. done. }
    destruct (temp rb) as [t|] eqn:Et.
    + case_decide as Hq.
      * split; [intros _; do 3 right; by exists t|].
        intros _. eexists. split; [reflexivity|]. done.
      * split.
        -- intros (rb' & Hret & Herr'). unfold assign_temp in Hret.
           rewrite Et in Hret. by simplify_eq.
        -- intros [?|[?|[Hnil|(t' & ? & ?)]]]; [lia|lia|by apply Hlen in Hnil|].
           by simplify_eq.
    + split; [intros (? & ? & ?); done|].
      intros [?|[?|[Hnil|(t' & ? & ?)]]]; [lia|lia|by apply Hlen in Hnil|done].
  - intros t Ht Hlvl Hf Hq. unfold WithEncoderAndCompression.
    rewrite decide_False by not_ne.
    rewrite decide_False by lia.
    rewrite decide_False by (by rewrite Hlen).
    rewrite Ht. rewrite decide_False by not_ne.
    by apply assign_temp_Some.
  - intros s f fs. split; intros lvl Hlvl; cbn [chain];
      rewrite invoke_AddStatement by done; simpl;
      unfold WithEncoderAndCompression; simpl;
      rewrite err_flush_temp, decide_False by not_ne.
    + rewrite decide_True by lia. eexists. split; [reflexivity|]. done.
    + rewrite decide_False by lia.
      unfold assign_temp; simpl. do 2 eexists.
      split; [reflexivity|]. simpl. by rewrite err_flush_temp.
Qed.

(** ** C8: the transaction follows the adding calls *)

Lemma invoke_items c rb rb1 :
  err rb = "" -> invoke c rb = Returns rb1 -> err rb1 = "" ->
  sql_text <$> items rb1 = (sql_text <$> items rb) ++ added c.
Proof.
  intros Herr Hinv Herr1. unfold items.
  destruct c; simpl in Hinv;
    unfold AddQuery, AddStatement, WithNoFail, WithValues,
      WithEncoderAndCompression, WithEncoder, WithDecoder,
      assign_temp, flush_temp, obind in Hinv;
    repeat (case_decide || case_match || simplify_eq/= || done);
    rewrite ?app_nil_r, ?fmap_app; simpl; try done;
    by rewrite <- ?app_assoc.
Qed.

Lemma chain_items cs rb rb' :
  err rb = "" -> chain cs rb = Returns rb' -> err rb' = "" ->
  sql_text <$> items rb' = (sql_text <$> items rb) ++ adds cs.
Proof.
  revert rb. induction cs as [|c cs IH]; intros rb Herr Hch Herr'.
  - simpl in Hch. simplify_eq. unfold adds. simpl. by rewrite app_nil_r.
  - destruct (chain_cons_ok _ _ _ _ Hch Herr') as (rb1 & Hinv & Herr1 & Hrest).
    rewrite (IH rb1 Herr1 Hrest Herr'), (invoke_items c rb rb1) by done.
    unfold adds. simpl. by rewrite app_assoc.
Qed.

Lemma Build_ok rb rb' R :
  Build rb = Returns (rb', (Some R, None)) ->
  err rb = "" /\ Transaction (req R) = items rb.
Proof.
  unfold Build, items. destruct (temp rb) as [t|] eqn:Et; simpl; [|done].
  case_decide as Herr; [done|]. rewrite Et. intros ?. by simplify_eq.
Qed.

(** C8. For a chain of builder calls on a new builder that [Build]
    accepts (chains of [AddQuery], [AddStatement] and [WithValues] among
    them), the transaction of the request has as many items as there
    were adding calls, and its i-th item carries the text of the i-th
    adding call, in [Query] for [AddQuery] and in [Statement] for
    [AddStatement]. *)
Theorem Build_transaction_follows_adds cs (R : @Request any) :
  chain_Build cs NewRequestBuilder = Returns (Some R, None) ->
  length (Transaction (req R)) = length (adds cs)
  /\ sql_text <$> Transaction (req R) = adds cs.
Proof.
  intros Hb. unfold chain_Build in Hb.
  destruct (chain cs NewRequestBuilder) as [rb|] eqn:Hch; [simpl in Hb|done].
  destruct (Build rb) as [[rb' out]|] eqn:HB; [simpl in Hb|done].
  simplify_eq. destruct (Build_ok _ _ _ HB) as [Herr Htx].
  assert (Heq : sql_text <$> Transaction (req R) = adds cs).
  { rewrite Htx, (chain_items cs NewRequestBuilder rb) by done. done. }
  split; [|done]. by rewrite <- Heq, length_fmap.
Qed.

End BuilderProperties.

(** * Properties of the client *)

Section ClientProperties.

Context {any : Type} {RT : Runtime any}.

Implicit Types (c : Client) (w : @World any) (R : @Request any).
Implicit Types (t : @requestItem any).

(** ** C10: [WithNoFail] on a query *)

Lemma put_omitempty_lookup_ne empty key key' v (o : gmap string json) :
  key <> key' -> put_omitempty empty key' v o !! key = o !! key.
Proof.
  intros Hne. unfold put_omitempty. destruct empty; [done|].
  by rewrite lookup_insert_ne.
Qed.

Lemma put_omitempty_lookup empty key v (o : gmap string json) :
  empty = false -> put_omitempty empty key v o !! key = Some v.
Proof. intros ->. unfold put_omitempty. by rewrite lookup_insert_eq. Qed.

Lemma marshal_entries_total (kvs : list (string * any)) :
  (forall v, exists j, json_Marshal_any v = inl j) ->
  exists o, marshal_entries kvs = inl o.
Proof.
  intros Htot. induction kvs as [|[k v] kvs [o IH]]; simpl; [by eexists|].
  destruct (Htot v) as [j ->]. simpl. rewrite IH. simpl. by eexists.
Qed.

Lemma marshal_maps_total (ms : list (gmap string any)) :
  (forall v, exists j, json_Marshal_any v = inl j) ->
  exists js, marshal_maps ms = inl js.
Proof.
  intros Htot. induction ms as [|m ms [js IH]]; simpl; [by eexists|].
  unfold marshal_map.
  destruct (marshal_entries_total (map_to_list m) Htot) as [o ->]. simpl.
  rewrite IH. simpl. by eexists.
Qed.

Lemma marshal_requestItem_total t :
  (forall v, exists j, json_Marshal_any v = inl j) ->
  exists o, marshal_requestItem t = inl (JObj o).
Proof.
  intros Htot. unfold marshal_requestItem.
  destruct (Values t) as [m|].
  - unfold marshal_map.
    destruct (marshal_entries_total (map_to_list m) Htot) as [o ->]. simpl.
    destruct (ValuesBatch t) as [ms|]; [|simpl; by eexists].
    destruct (marshal_maps_total ms Htot) as [js ->]. simpl. by eexists.
  - simpl. destruct (ValuesBatch t) as [ms|]; [|simpl; by eexists].
    destruct (marshal_maps_total ms Htot) as [js ->]. simpl. by eexists.
Qed.

Lemma marshal_requestItem_keys t j :
  marshal_requestItem t = inl j ->
  exists o, j = JObj o
    /\ (NoFail t = true -> o !! "noFail" = Some (JBool true))
    /\ (NoFail t = false -> o !! "noFail" = None)
    /\ (Query t <> "" -> o !! "query" = Some (JStr (Query t)))
    /\ (Statement t <> "" -> o !! "statement" = Some (JStr (Statement t))).
Proof.
  unfold marshal_requestItem, ebind. intros Hm.
  assert (exists values valuesBatch, j = JObj
    (put_omitempty (is_nil (Decoder t)) "decoder"
       (default JNull (marshal_requestItemCrypto <$> Decoder t))
    (put_omitempty (is_nil (Encoder t)) "encoder"
       (default JNull (marshal_requestItemCrypto <$> Encoder t))
    (put_omitempty (bool_decide (valuesBatch = [])) "valuesBatch" (JArr valuesBatch)
    (put_omitempty (bool_decide (default ∅ (Values t) = ∅)) "values" values
    (put_omitempty (negb (NoFail t)) "noFail" (JBool (NoFail t))
    (put_omitempty (bool_decide (Statement t = "")) "statement" (JStr (Statement t))
    (put_omitempty (bool_decide (Query t = "")) "query" (JStr (Query t)) ∅))))))))
    as (values & valuesBatch & ->).
  { repeat case_match; simplify_eq; by do 2 eexists. }
  clear Hm. eexists. split; [reflexivity|].
  split; [|split; [|split]]; intros Hf;
    rewrite !put_omitempty_lookup_ne by done.
  - rewrite put_omitempty_lookup by (by rewrite Hf). by rewrite Hf.
  - rewrite Hf. simpl. by rewrite !put_omitempty_lookup_ne by done.
  - by rewrite put_omitempty_lookup by (by rewrite bool_decide_eq_false).
  - by rewrite put_omitempty_lookup by (by rewrite bool_decide_eq_false).
Qed.

(** C10. On a builder without latched error whose open item is a query,
    [WithNoFail] returns without latching an error and sets [NoFail] on
    that item, nothing else; the item is then marshalled with the key
    [noFail] set to [true] next to its [query] key (and it is marshalled
    whenever its bound values are). *)
Theorem WithNoFail_on_query (rb : @RequestBuilder any) t :
  err rb = "" -> temp rb = Some t -> Query t <> "" ->
  WithNoFail rb = Returns (set_temp (Some (set_NoFail true t)) rb)
  /\ err (set_temp (Some (set_NoFail true t)) rb) = ""
  /\ (forall j, marshal_requestItem (set_NoFail true t) = inl j ->
        exists o, j = JObj o
                  /\ o !! "noFail" = Some (JBool true)
                  /\ o !! "query" = Some (JStr (Query t)))
  /\ ((forall v, exists j, json_Marshal_any v = inl j) ->
        exists o, marshal_requestItem (set_NoFail true t) = inl (JObj o)).
Proof.
  intros Herr Ht Hq. split; [|split; [done|split]].
  - unfold WithNoFail. rewrite decide_False by not_ne. by apply assign_temp_Some.
  - intros j Hm.
    destruct (marshal_requestItem_keys _ _ Hm) as (o & -> & Hnf & _ & Hqk & _).
    exists o. split; [done|]. split; [by apply Hnf | by apply Hqk].
  - apply marshal_requestItem_total.
Qed.

(** ** The round trip, step by step *)

Lemma app_one_neq {A : Type} (l : list A) (x : A) : l <> l ++ [x].
Proof.
  intros Heq. apply (f_equal length) in Heq. rewrite length_app in Heq.
  simpl in Heq. lia.
Qed.

(** The request after the credentials of an inline client were written
    into it (lines 155 to 160). *)
Lemma SendWithContext_inv c ctx r w w' out :
  SendWithContext c ctx r w = Returns (w', out) ->
  exists R R1,
    heap w !! r = Some R
    /\ R1 = (if decide (authMode (builder c) = AUTH_MODE_INLINE) then
               {| req := set_Credentials
                           (Some {| User := user (builder c);
                                    Password := password (builder c) |}) (req R) |}
             else R)
    /\ heap w' = (if decide (authMode (builder c) = AUTH_MODE_INLINE) then
                    <[r := R1]> (heap w)
                  else heap w)
    /\ ((posted w' = posted w /\ exists e, out = (None, 0, Some e))
        \/ exists jsonData post,
             json_Marshal (req R1) = inl jsonData
             /\ http_NewRequest_check ctx "POST" (url (builder c)) = None
             /\ post = Header_Add "Content-Type" "application/json"
                        (let post := {| Method := "POST"; URL := url (builder c);
                                        Body := jsonData; BasicAuth := None;
                                        Header := [] |} in
                         if decide (authMode (builder c) = AUTH_MODE_HTTP) then
                           SetBasicAuth (user (builder c)) (password (builder c)) post
                         else post)
             /\ posted w' = posted w ++ [post]
             /\ match client_Do ctx post with
                | inr e => out = (None, 0, Some e)
                | inl resp =>
                  match ReadAll_Body resp with
                  | inr e => out = (None, StatusCode resp, Some e)
                  | inl body =>
                    if decide (StatusCode resp <> 200) then
                      out = (None, StatusCode resp,
                             Some (error_WsError
                               (set_Code (StatusCode resp)
                                  match json_Unmarshal_WsError body WsError_zero with
                                  | (wserr, Some _) =>
                                    set_Msg body (set_RequestIdx (-1) wserr)
                                  | (wserr, None) => wserr
                                  end)))
                    else
                      match json_Unmarshal_response body with
                      | inr e => out = (None, StatusCode resp, Some e)
                      | inl res =>
                        match decodeResults (wResults res) [] with
                        | inr e => out = (None, StatusCode resp, Some e)
                        | inl Res =>
                          out = (Some {| Results := Res |}, StatusCode resp, None)
                        end
                      end
                  end
                end).
Proof.
  unfold SendWithContext, http_NewRequestWithContext. intros Hs.
  destruct (heap w !! r) as [R|] eqn:HR; [|done].
  exists R. eexists. split; [done|]. split; [reflexivity|].
  cbv zeta in *.
  destruct (decide (authMode (builder c) = AUTH_MODE_INLINE)) as [Hin|Hin];
    (destruct (json_Marshal _) as [jsonData|e] eqn:Hm;
     [|simplify_eq; split; [done|]; left; split; [done|]; by eexists]);
    (destruct (http_NewRequest_check _ _ _) as [e|] eqn:Hn;
     [simplify_eq; split; [done|]; left; split; [done|]; by eexists|]);
    match type of Hs with
    | context [client_Do ctx ?p] => set (post := p) in *
    end;
    match type of Hs with
    | context [set_posted _ ?w1] =>
      assert (heap w' = heap w1 /\ posted w' = posted w1 ++ [post]) as [Hh' Hp'];
      [ repeat case_match; by simplify_eq |]
    end;
    simpl in Hh', Hp';
    (split; [done|]);
    right; exists jsonData, post;
    (split; [done|]); (split; [done|]); (split; [done|]); (split; [done|]);
    destruct (client_Do ctx post) as [resp|e]; [|by simplify_eq| |by simplify_eq];
    (destruct (ReadAll_Body resp) as [body|e]; [|by simplify_eq]);
    (case_decide;
     [ destruct (json_Unmarshal_WsError body WsError_zero) as [wserr [e|]];
       by simplify_eq
     | destruct (json_Unmarshal_response body) as [res|e]; [|by simplify_eq];
       destruct (decodeResults (wResults res) []) as [Res|e]; by simplify_eq ]).
Qed.

Lemma SendWithContext_returns c ctx r w R :
  heap w !! r = Some R -> exists w' out, SendWithContext c ctx r w = Returns (w', out).
Proof.
  intros HR. unfold SendWithContext. rewrite HR. cbv zeta.
  repeat case_match; by do 2 eexists.
Qed.

(** ** C5: answers other than 200 *)


(** ** C3: decoding a 200 body *)

Lemma decodeCells_other cells (acc out : gmap string any) k :
  decodeCells cells acc = inl out -> k ∉ cells.*1 -> out !! k = acc !! k.
Proof.
  revert acc. induction cells as [|[k' v] cells IH]; intros acc Hd Hk; simpl in *.
  - by simplify_eq.
  - destruct (json_Unmarshal_any v) as [v2|e]; [simpl in Hd|done].
    apply not_elem_of_cons in Hk as [Hne Hk].
    rewrite (IH _ Hd Hk). by rewrite lookup_insert_ne.
Qed.

Lemma decodeCells_cell cells (acc out : gmap string any) k v :
  decodeCells cells acc = inl out -> NoDup cells.*1 -> (k, v) ∈ cells ->
  exists v2, json_Unmarshal_any v = inl v2 /\ out !! k = Some v2.
Proof.
  revert acc. induction cells as [|[k' v'] cells IH]; intros acc Hd Hnd Hin; simpl in *.
  - by apply elem_of_nil in Hin.
  - destruct (json_Unmarshal_any v') as [v2|e] eqn:Hu; [simpl in Hd|done].
    apply NoDup_cons in Hnd as [Hk' Hnd].
    apply elem_of_cons in Hin as [Heq|Hin].
    + simplify_eq. exists v2. split; [done|].
      rewrite (decodeCells_other _ _ _ _ Hd Hk'). by rewrite lookup_insert_eq.
    + by apply (IH _ Hd Hnd Hin).
Qed.

Lemma decodeCells_row (row : gmap string RawMessage) (out : gmap string any) :
  decodeCells (map_to_list row) ∅ = inl out -> row_decoded row out.
Proof.
  intros Hd k. destruct (row !! k) as [v|] eqn:Hk.
  - apply elem_of_map_to_list in Hk.
    eapply decodeCells_cell; [done|apply NoDup_fst_map_to_list|done].
  - rewrite (decodeCells_other _ _ _ _ Hd); [done|].
    intros ((k' & v) & -> & Hin)%list_elem_of_fmap.
    apply elem_of_map_to_list in Hin. simpl in Hk. congruence.
Qed.

Lemma decodeCells_total cells (acc : gmap string any) :
  (forall k v, (k, v) ∈ cells -> exists v2, json_Unmarshal_any v = inl v2) ->
  exists out, decodeCells cells acc = inl out.
Proof.
  revert acc. induction cells as [|[k v] cells IH]; intros acc Hok; simpl.
  - by eexists.
  - destruct (Hok k v) as [v2 ->]; [by left|]. simpl.
    apply IH. intros k' v' Hin. apply (Hok k' v'). by right.
Qed.

Lemma decodeRows_rows rows (acc out : list (gmap string any)) :
  decodeRows rows acc = inl out ->
  exists Rirs, out = acc ++ Rirs /\ Forall2 row_decoded rows Rirs.
Proof.
  revert acc. induction rows as [|row rows IH]; intros acc Hd; simpl in *.
  - simplify_eq. exists []. by rewrite app_nil_r.
  - destruct (decodeCells (map_to_list row) ∅) as [Rirsi|e] eqn:Hc; [simpl in Hd|done].
    destruct (IH _ Hd) as (Rirs & -> & HF).
    exists (Rirsi :: Rirs). split; [by rewrite <- app_assoc|].
    constructor; [by apply decodeCells_row | done].
Qed.

Lemma decodeRows_total rows (acc : list (gmap string any)) :
  (forall row k v, row ∈ rows -> row !! k = Some v ->
     exists v2, json_Unmarshal_any v = inl v2) ->
  exists out, decodeRows rows acc = inl out.
Proof.
  revert acc. induction rows as [|row rows IH]; intros acc Hok; simpl.
  - by eexists.
  - destruct (decodeCells_total (map_to_list row) ∅) as [Rirsi ->].
    { intros k v Hin%elem_of_map_to_list. apply (Hok row k v); [by left | done]. }
    simpl. apply IH. intros row' k v Hin. apply Hok. by right.
Qed.

Lemma decodeItem_item ri Ri :
  decodeItem ri = inl Ri -> item_decoded ri Ri.
Proof.
  unfold decodeItem, item_decoded. intros Hd.
  destruct (wResultSet ri) as [rows|]; [|by simplify_eq].
  destruct (decodeRows rows []) as [Rirs|e] eqn:Hr; [simpl in Hd|done].
  simplify_eq. simpl. repeat (split; [done|]).
  destruct (decodeRows_rows _ _ _ Hr) as (Rirs' & -> & HF). by exists Rirs'.
Qed.

Lemma decodeResults_items results (acc out : list ResponseItem) :
  decodeResults results acc = inl out ->
  exists Res, out = acc ++ Res /\ Forall2 item_decoded results Res.
Proof.
  revert acc. induction results as [|ri results IH]; intros acc Hd; simpl in *.
  - simplify_eq. exists []. by rewrite app_nil_r.
  - destruct (decodeItem ri) as [Ri|e] eqn:Hi; [simpl in Hd|done].
    destruct (IH _ Hd) as (Res & -> & HF).
    exists (Ri :: Res). split; [by rewrite <- app_assoc|].
    constructor; [by apply decodeItem_item | done].
Qed.

Lemma decodeResults_total results (acc : list ResponseItem) :
  cells_decode results -> exists out, decodeResults results acc = inl out.
Proof.
  revert acc. induction results as [|ri results IH]; intros acc Hok; simpl.
  - by eexists.
  - assert (exists Ri, decodeItem ri = inl Ri) as [Ri ->].
    { unfold decodeItem. destruct (wResultSet ri) as [rows|] eqn:Hrs; [|by eexists].
      destruct (decodeRows_total rows []) as [Rirs ->]; [|simpl; by eexists].
      intros row k v Hin Hk. apply (Hok ri rows row k v); [by left|done..]. }
    simpl. apply IH. intros ri' rows row k v Hin. apply Hok. by right.
Qed.

Lemma item_decoded_populated ri Ri :
  item_decoded ri Ri -> populated Ri = wire_populated ri.
Proof.
  intros (_ & He & Hu & Hb & Hrs). unfold populated, wire_populated.
  rewrite He, Hu, Hb. do 3 f_equal.
  destruct (wResultSet ri); [destruct Hrs as (? & -> & _)|rewrite Hrs]; done.
Qed.

(** C3 (amended). Whenever the call posted a request and the transport
    answered it with status 200 and a body that parses to [N] results,
    the call returns a [Response] exactly when every cell of every
    result set decodes; that [Response] has [N] results, the i-th
    decoded from the i-th of the body: [Success], [Error],
    [RowsUpdated] and [RowsUpdatedBatch] copied, [ResultSet] present
    when the body has one, with as many rows, each cell decoded under
    its column name. The number of populated outcome fields of each
    decoded item is that of the item in the body: one when the body has
    one, none or several when the body has none or several. *)
Theorem decoded_results_follow_body c ctx r w w' out post resp body res :
  SendWithContext c ctx r w = Returns (w', out) ->
  posted w' = posted w ++ [post] ->
  client_Do ctx post = inl resp ->
  ReadAll_Body resp = inl body ->
  StatusCode resp = 200 ->
  json_Unmarshal_response body = inl res ->
  (cells_decode (wResults res) <-> exists Res, out = (Some Res, 200, None))
  /\ (forall Res, out.1.1 = Some Res ->
        length (Results Res) = length (wResults res)
        /\ Forall2 item_decoded (wResults res) (Results Res)
        /\ (forall i ri Ri,
              wResults res !! i = Some ri -> Results Res !! i = Some Ri ->
              populated Ri = wire_populated ri)).
Proof.
  intros Hs Hp Hdo Hbody Hcode Hres.
  destruct (SendWithContext_inv _ _ _ _ _ _ Hs)
    as (R & R1 & HR & _ & _ & [[Hp' _]|(jsonData & post' & _ & _ & _ & Hp' & Hout)]).
  { rewrite Hp' in Hp. by apply app_one_neq in Hp. }
  rewrite Hp in Hp'. apply app_inj_tail in Hp' as [_ <-].
  rewrite Hdo, Hbody, decide_False, Hres, Hcode in Hout by (by rewrite Hcode; not_ne).
  destruct (decodeResults (wResults res) []) as [Res|e] eqn:Hd; subst out.
  - destruct (decodeResults_items _ _ _ Hd) as (Res' & -> & HF). simpl in *.
    split.
    + split; [intros _; by eexists|]. intros _ ri rows row k v Hri Hrs Hrow Hk.
      destruct (proj1 (list_elem_of_lookup _ _) Hri) as [i Hi].
      destruct (Forall2_lookup_l _ _ _ _ _ HF Hi) as (Ri & _ & _ & _ & _ & _ & HRS).
      rewrite Hrs in HRS. destruct HRS as (Rirs & _ & HFr).
      destruct (proj1 (list_elem_of_lookup _ _) Hrow) as [i2 Hi2].
      destruct (Forall2_lookup_l _ _ _ _ _ HFr Hi2) as (Rirsi & _ & Hrd).
      specialize (Hrd k). rewrite Hk in Hrd. destruct Hrd as (v2 & ? & _). by exists v2.
    + intros Res [= <-]. simpl. split; [by rewrite (Forall2_length _ _ _ HF)|].
      split; [done|]. intros i ri Ri Hi HRi.
      destruct (Forall2_lookup_l _ _ _ _ _ HF Hi) as (Ri' & HRi' & Hdec).
      rewrite HRi in HRi'. simplify_eq. by apply item_decoded_populated.
  - split; [|done]. split; [|by intros (? & ?)].
    intros Hok. destruct (decodeResults_total _ [] Hok) as [out Hout]. congruence.
Qed.

(** ** C1: what [Send] does to the request it is given *)

Lemma json_Marshal_credentials (rq : @request any) j :
  json_Marshal rq = inl j ->
  exists o, j = JObj o /\ o !! "credentials" = marshal_credentials <$> Credentials rq.
Proof.
  unfold json_Marshal, ebind. intros Hm.
  destruct (marshal_transaction (Transaction rq)) as [tx|e]; [|done].
  simplify_eq. eexists. split; [reflexivity|].
  unfold put. rewrite lookup_insert_ne by done.
  destruct (Credentials rq); simpl; [by rewrite lookup_insert_eq | done].
Qed.

(** One call: the stored request afterwards, and the payload posted. *)
Lemma SendWithContext_effect c ctx r w R :
  heap w !! r = Some R ->
  exists w' out R',
    SendWithContext c ctx r w = Returns (w', out)
    /\ heap w' !! r = Some R'
    /\ (forall r', r' <> r -> heap w' !! r' = heap w !! r')
    /\ Transaction (req R') = Transaction (req R)
    /\ Credentials (req R')
       = (if decide (authMode (builder c) = AUTH_MODE_INLINE)
          then Some {| User := user (builder c); Password := password (builder c) |}
          else Credentials (req R))
    /\ (forall post, posted w' = posted w ++ [post] ->
          exists o, Body post = JObj o
                    /\ o !! "credentials" = marshal_credentials <$> Credentials (req R')).
Proof.
  intros HR.
  destruct (SendWithContext_returns c ctx r w R HR) as (w' & out & Hs).
  destruct (SendWithContext_inv _ _ _ _ _ _ Hs) as (R0 & R1 & HR0 & HR1 & Hh & Hrest).
  rewrite HR in HR0. simplify_eq.
  exists w', out.
  exists (if decide (authMode (builder c) = AUTH_MODE_INLINE) then
            {| req := set_Credentials
                        (Some {| User := user (builder c);
                                 Password := password (builder c) |}) (req R0) |}
          else R0).
  split; [done|].
  split; [rewrite Hh; case_decide; [by rewrite lookup_insert_eq | done]|].
  split; [intros r' Hne; rewrite Hh; case_decide;
          [by rewrite lookup_insert_ne | done]|].
  split; [by case_decide|]. split; [by case_decide|].
  intros post Hp. destruct Hrest as [[Hp' _]|(jsonData & post' & Hm & _ & Hpost & Hp' & _)].
  { rewrite Hp' in Hp. by apply app_one_neq in Hp. }
  rewrite Hp in Hp'. apply app_inj_tail in Hp' as [_ <-].
  destruct (json_Marshal_credentials _ _ Hm) as (o & -> & Ho).
  exists o. split; [|done]. rewrite Hpost. cbv zeta.
  by destruct (decide (authMode (builder c) = AUTH_MODE_HTTP)).
Qed.

(** C1 (amended). [Send] with an inline client on an allocated request
    returns, having written the client's user and password into the
    credentials field of the stored request and left its transaction as
    it was; the payload it posts carries those credentials. They stay
    in the request: a later [Send] of the same request with a client
    that is not inline leaves them there and posts a payload that
    carries them, while a later inline client overwrites them with its
    own. *)
Theorem Send_credentials_stay_in_request c1 c2 ctx1 ctx2 r w R :
  heap w !! r = Some R ->
  authMode (builder c1) = AUTH_MODE_INLINE ->
  let creds1 := {| User := user (builder c1); Password := password (builder c1) |} in
  let creds2 := {| User := user (builder c2); Password := password (builder c2) |} in
  let carried := if decide (authMode (builder c2) = AUTH_MODE_INLINE)
                 then creds2 else creds1 in
  exists w1 out1 R1,
    SendWithContext c1 ctx1 r w = Returns (w1, out1)
    /\ heap w1 !! r = Some R1
    /\ Transaction (req R1) = Transaction (req R)
    /\ Credentials (req R1) = Some creds1
    /\ (forall post, posted w1 = posted w ++ [post] ->
          exists o, Body post = JObj o
                    /\ o !! "credentials" = Some (marshal_credentials creds1))
    /\ exists w2 out2 R2,
         SendWithContext c2 ctx2 r w1 = Returns (w2, out2)
         /\ heap w2 !! r = Some R2
         /\ Transaction (req R2) = Transaction (req R)
         /\ Credentials (req R2) = Some carried
         /\ (forall post, posted w2 = posted w1 ++ [post] ->
               exists o, Body post = JObj o
                         /\ o !! "credentials" = Some (marshal_credentials carried)).
Proof.
  intros HR Hin creds1 creds2 carried.
  destruct (SendWithContext_effect c1 ctx1 r w R HR)
    as (w1 & out1 & R1 & Hs1 & HR1 & _ & Htx1 & Hc1 & Hp1).
  rewrite decide_True in Hc1 by done.
  exists w1, out1, R1. repeat (split; [done|]).
  split. { intros post Hp. destruct (Hp1 post Hp) as (o & ? & Ho).
           exists o. by rewrite Ho, Hc1. }
  destruct (SendWithContext_effect c2 ctx2 r w1 R1 HR1)
    as (w2 & out2 & R2 & Hs2 & HR2 & _ & Htx2 & Hc2 & Hp2).
  assert (Hcar : Credentials (req R2) = Some carried).
  { rewrite Hc2. unfold carried. by case_decide. }
  exists w2, out2, R2. repeat (split; [done|]).
  split; [congruence|]. split; [done|].
  intros post Hp. destruct (Hp2 post Hp) as (o & ? & Ho).
  exists o. by rewrite Ho, Hcar.
Qed.

End ClientProperties.

(** * Worked examples *)

(** The chain of the tests builds the five items in call order, the
    last one with a batch of two mappings. *)
Example test_calls_build :
  exists R, chain_Build test_calls NewRequestBuilder = Returns (Some R, None)
    /\ sql_text <$> Transaction (req R)
       = [ ("SELECT * FROM TEMP", "");
           ("SELECT * FROM TEMP WHERE ID = :id ORDER BY ID ASC", "");
           ("", "INSERT INTO TEMP (ID, VAL) VALUES (0, 'ZERO')");
           ("", "INSERT INTO TEMP (ID, VAL) VALUES (:id, :val)");
           ("", "INSERT INTO TEMP (ID, VAL) VALUES (:id, :val)") ]
    /\ NoFail <$> Transaction (req R) = [false; false; false; true; false]
    /\ (length <$> ValuesBatch (default requestItem_zero (last (Transaction (req R)))))
       = Some 2%nat.
Proof. eexists. split; [vm_compute; reflexivity|]. vm_compute. done. Qed.

(** ** The builder *)

Lemma latched_error_policy_witness :
  (list_ (set_err "cannot specify a nil argument" query_builder) = list_ query_builder
   /\ temp (set_err "cannot specify a nil argument" query_builder) = temp query_builder)
  /\ (forall cs, chain cs (set_err "cannot specify a nil argument" query_builder)
                 = Returns (set_err "cannot specify a nil argument" query_builder))
  /\ (temp (set_err "cannot specify a nil argument" query_builder) <> None ->
        forall cs, chain_Build cs (set_err "cannot specify a nil argument" query_builder)
                   = Returns (None, Some (errors_New "cannot specify a nil argument")))
  /\ (temp (set_err "cannot specify a nil argument" query_builder) = None ->
        forall cs, chain_Build cs (set_err "cannot specify a nil argument" query_builder)
                   = Returns (None, Some (errors_New "There are no requests"))).
Proof.
  apply (latched_error_policy (CWithValues None) query_builder
           (set_err "cannot specify a nil argument" query_builder));
    [reflexivity | reflexivity | simpl; discriminate].
Defined.

(** C4, as stated, fails on a builder with no item: the first call
    latches "cannot specify a nil argument", and [Build] returns
    "There are no requests". *)
Lemma Build_overwrites_latched_error :
  invoke (any:=dyn) (CWithValues None) NewRequestBuilder
  = Returns (set_err "cannot specify a nil argument" NewRequestBuilder)
  /\ chain_Build (any:=dyn) [CWithValues None] NewRequestBuilder
     = Returns (None, Some (errors_New "There are no requests"))
  /\ errors_New "There are no requests" <> errors_New "cannot specify a nil argument".
Proof. split; [reflexivity|]. split; [reflexivity|]. discriminate. Qed.

Lemma WithValues_stages_witness :
  (forall (vs : list (option (gmap string dyn))) rb',
     chain (CWithValues <$> vs) statement_builder = Returns rb' -> err rb' = "" ->
     exists ms, vs = Some <$> ms
       /\ list_ rb' = list_ statement_builder
       /\ temp rb' = Some match ms with
                          | [] => set_Statement
                                    "INSERT INTO TEMP (ID, VAL) VALUES (:id, :val)"
                                    requestItem_zero
                          | [m] => set_Values (Some m)
                                     (set_Statement
                                        "INSERT INTO TEMP (ID, VAL) VALUES (:id, :val)"
                                        requestItem_zero)
                          | _ => set_Values None (set_ValuesBatch (Some ms)
                                     (set_Statement
                                        "INSERT INTO TEMP (ID, VAL) VALUES (:id, :val)"
                                        requestItem_zero))
                          end)
  /\ (Query (set_Statement "INSERT INTO TEMP (ID, VAL) VALUES (:id, :val)"
               (requestItem_zero (any:=dyn))) = "" ->
      forall ms : list (gmap string dyn),
        exists rb', chain (CWithValues <$> (Some <$> ms)) statement_builder = Returns rb'
                    /\ err rb' = "").
Proof.
  apply (WithValues_stages statement_builder
           (set_Statement "INSERT INTO TEMP (ID, VAL) VALUES (:id, :val)"
              requestItem_zero));
    reflexivity.
Defined.

(** Three bindings on a statement: a batch of three, in call order. *)
Example three_bindings_on_statement :
  chain [CWithValues (Some row_a); CWithValues (Some row_b); CWithValues (Some row_c)]
    statement_builder
  = Returns (set_temp (Some (set_Values None (set_ValuesBatch
               (Some [row_a; row_b; row_c])
               (set_Statement "INSERT INTO TEMP (ID, VAL) VALUES (:id, :val)"
                  requestItem_zero)))) statement_builder).
Proof. reflexivity. Qed.

Lemma WithValues_error_iff_witness :
  ((exists rb', WithValues None query_builder = Returns rb' /\ err rb' <> "")
   <-> (@None (gmap string dyn) = None
        \/ exists t, temp query_builder = Some t /\ Query t <> ""
                     /\ (Values t <> None \/ ValuesBatch t <> None)))
  /\ (forall s (ms : list (gmap string dyn)),
        exists rb', chain (CAddStatement s :: (CWithValues <$> (Some <$> ms)))
                      query_builder
                    = Returns rb' /\ err rb' = "").
Proof. apply (WithValues_error_iff query_builder None). reflexivity. Defined.

(** A second binding on a query is refused, on a statement it starts a
    batch. *)
Example second_binding_on_query :
  exists rb, chain [CAddQuery "SELECT * FROM TEMP WHERE ID = :id";
                    CWithValues (Some row_a); CWithValues (Some row_b)]
               NewRequestBuilder = Returns rb
             /\ err rb = "cannot specify a batch for a query".
Proof. eexists. split; reflexivity. Qed.

Lemma WithEncoderAndCompression_error_iff_witness :
  ((exists rb', WithEncoderAndCompression "secret" 19 ["VAL"] statement_builder
                = Returns rb' /\ err rb' <> "")
   <-> (19 < 1 \/ 19 > 19 \/ ["VAL"] = []
        \/ exists t, temp statement_builder = Some t /\ Query t <> ""))
  /\ (forall t, temp statement_builder = Some t ->
        1 <= 19 <= 19 -> ["VAL"] <> [] -> Query t = "" ->
        WithEncoderAndCompression "secret" 19 ["VAL"] statement_builder
        = Returns (set_temp (Some (set_Encoder
                     (Some {| cryptoPassword := "secret";
                              CompressionLevel := 19;
                              Fields := ["VAL"] |}) t)) statement_builder))
  /\ (forall s f fs,
        (forall lvl, lvl = 0 \/ lvl = 20 ->
           exists rb', chain [CAddStatement s;
                              CWithEncoderAndCompression "secret" lvl (f :: fs)]
                         statement_builder
                       = Returns rb' /\ err rb' <> "")
        /\ (forall lvl, lvl = 1 \/ lvl = 19 ->
           exists rb' t', chain [CAddStatement s;
                              CWithEncoderAndCompression "secret" lvl (f :: fs)]
                         statement_builder
                       = Returns rb' /\ err rb' = "" /\ temp rb' = Some t'
                       /\ Encoder t' = Some {| cryptoPassword := "secret";
                                               CompressionLevel := lvl;
                                               Fields := f :: fs |})).
Proof.
  apply (WithEncoderAndCompression_error_iff statement_builder "secret" 19 ["VAL"]).
  reflexivity.
Defined.

Lemma Build_transaction_follows_adds_witness :
  exists R, chain_Build test_calls NewRequestBuilder = Returns (Some R, None)
    /\ length (Transaction (req R)) = length (adds test_calls)
    /\ sql_text <$> Transaction (req R) = adds test_calls.
Proof.
  eexists. split; [vm_compute; reflexivity|].
  apply (Build_transaction_follows_adds test_calls). vm_compute. reflexivity.
Defined.

(** ** The client *)

(** The clients of the tests, as [ClientBuilder.Build] returns them. *)
Example inline_client_built :
  ClientBuilder_Build (WithInlineAuth "myUser1" "myHotPassword"
                         (WithURL "http://localhost:12321/mydb2" NewClientBuilder))
  = (Some inline_client, None)
  /\ ClientBuilder_Build (WithInlineAuth "myUser1" "" NewClientBuilder)
     = (None, Some (errors_New "no url specified"))
  /\ ClientBuilder_Build (WithInlineAuth "myUser1" ""
                            (WithURL "http://localhost:12321/mydb2" NewClientBuilder))
     = (None, Some (errors_New "no user or password specified")).
Proof. repeat split. Qed.

Lemma WithNoFail_on_query_witness :
  WithNoFail query_builder
  = Returns (set_temp (Some (set_NoFail true
               (set_Query "SELECT * FROM TEMP" requestItem_zero))) query_builder)
  /\ err (set_temp (Some (set_NoFail true
               (set_Query "SELECT * FROM TEMP" requestItem_zero))) query_builder) = ""
  /\ (forall j, marshal_requestItem (RT := scripted script200)
                  (set_NoFail true (set_Query "SELECT * FROM TEMP" requestItem_zero))
                = inl j ->
        exists o, j = JObj o
                  /\ o !! "noFail" = Some (JBool true)
                  /\ o !! "query" = Some (JStr "SELECT * FROM TEMP"))
  /\ ((forall v, exists j, json_Marshal_any (Runtime := scripted script200) v = inl j) ->
        exists o, marshal_requestItem (RT := scripted script200)
                    (set_NoFail true (set_Query "SELECT * FROM TEMP" requestItem_zero))
                  = inl (JObj o)).
Proof.
  apply (WithNoFail_on_query (RT := scripted script200) query_builder
           (set_Query "SELECT * FROM TEMP" requestItem_zero));
    [reflexivity | reflexivity | simpl; discriminate].
Defined.

(** A query marked [noFail] is marshalled with both keys. *)
Example noFail_query_payload :
  marshal_requestItem (RT := scripted script200)
    (set_NoFail true (set_Query "SELECT * FROM TEMP" requestItem_zero))
  = inl (JObj (<[ "noFail" := JBool true ]>
                 {[ "query" := JStr "SELECT * FROM TEMP" ]})).
Proof. reflexivity. Qed.


(** The error of [TestError]: index and message from the body, code
    from the status. *)
Example test_error_outcome :
  exists w',
    SendWithContext (RT := scripted script500) inline_client tt 0%nat world0
    = Returns (w', (None, 500,
                    Some (error_WsError {| RequestIdx := 0;
                                           Msg := "near SELENCT: syntax error";
                                           Code := 500 |}))).
Proof. eexists. vm_compute. reflexivity. Qed.

Lemma decoded_results_follow_body_witness :
  exists w' out,
    SendWithContext (RT := scripted script200) http_client tt 0%nat world0
    = Returns (w', out)
    /\ (cells_decode (RT := scripted script200) results200
        <-> exists Res, out = (Some Res, 200, None))
    /\ (forall Res, out.1.1 = Some Res ->
          length (Results Res) = length results200
          /\ Forall2 (item_decoded (RT := scripted script200)) results200 (Results Res)
          /\ (forall i ri Ri,
                results200 !! i = Some ri -> Results Res !! i = Some Ri ->
                populated Ri = wire_populated ri)).
Proof.
  do 2 eexists. split; [vm_compute; reflexivity|].
  eapply (decoded_results_follow_body (RT := scripted script200)
            http_client tt 0%nat world0 _ _ _
            {| StatusCode := 200; ReadAll_Body := inl body200 |} body200
            {| wResults := results200 |});
    [vm_compute; reflexivity | reflexivity | reflexivity | reflexivity
    | reflexivity | vm_compute; reflexivity].
Defined.

(** The decoded response of that answer. *)
Example test_response_outcome :
  exists w',
    SendWithContext (RT := scripted script200) http_client tt 0%nat world0
    = Returns (w', (Some {| Results :=
         [ {| Success := true; RowsUpdated := None; RowsUpdatedBatch := None;
              ResultSet := Some [ <[ "ID" := dyn_int 1 ]> {[ "VAL" := dyn_string "ONE" ]} ];
              Error := "" |};
           {| Success := true; RowsUpdated := Some 1; RowsUpdatedBatch := None;
              ResultSet := None; Error := "" |} ] |}, 200, None)).
Proof. eexists. vm_compute. reflexivity. Qed.

(** C3, as stated, fails on a 200 body whose items do not carry exactly
    one outcome: the first decoded item has no populated outcome field,
    the second has two. *)
Lemma decoded_items_without_single_outcome :
  exists w' Ri0 Ri1,
    SendWithContext (RT := scripted script200_odd) plain_client tt 0%nat world0
    = Returns (w', (Some {| Results := [Ri0; Ri1] |}, 200, None))
    /\ populated Ri0 = 0%nat
    /\ populated Ri1 = 2%nat.
Proof. do 3 eexists. split; [vm_compute; reflexivity|]. split; reflexivity. Qed.

Lemma Send_credentials_stay_in_request_witness :
  exists w1 out1 R1,
    SendWithContext (RT := scripted script200) inline_client tt 0%nat world0
    = Returns (w1, out1)
    /\ heap w1 !! 0%nat = Some R1
    /\ Transaction (req R1) = Transaction (req error_request)
    /\ Credentials (req R1) = Some test_credentials
    /\ (forall post, posted w1 = posted world0 ++ [post] ->
          exists o, Body post = JObj o
                    /\ o !! "credentials" = Some (marshal_credentials test_credentials))
    /\ exists w2 out2 R2,
         SendWithContext (RT := scripted script200) plain_client tt 0%nat w1
         = Returns (w2, out2)
         /\ heap w2 !! 0%nat = Some R2
         /\ Transaction (req R2) = Transaction (req error_request)
         /\ Credentials (req R2) = Some test_credentials
         /\ (forall post, posted w2 = posted w1 ++ [post] ->
               exists o, Body post = JObj o
                         /\ o !! "credentials"
                            = Some (marshal_credentials test_credentials)).
Proof.
  apply (Send_credentials_stay_in_request (RT := scripted script200)
           inline_client plain_client tt tt 0%nat world0 error_request);
    reflexivity.
Defined.

(** C1, as stated, fails: after [Send] with an inline client the stored
    request holds the client's credentials, which it did not before, and
    a following [Send] of the same request with a client without
    authentication posts them. *)
Lemma Send_changes_stored_request :
  Credentials (req error_request) = None
  /\ exists w1 out1 R1 w2 out2 post o,
       SendWithContext (RT := scripted script200) inline_client tt 0%nat world0
       = Returns (w1, out1)
       /\ heap w1 !! 0%nat = Some R1
       /\ Credentials (req R1) = Some test_credentials
       /\ Some R1 <> heap world0 !! 0%nat
       /\ SendWithContext (RT := scripted script200) plain_client tt 0%nat w1
          = Returns (w2, out2)
       /\ posted w2 = posted w1 ++ [post]
       /\ Body post = JObj o
       /\ o !! "credentials" = Some (marshal_credentials test_credentials).
Proof.
  split; [reflexivity|]. do 7 eexists.
  split; [vm_compute; reflexivity|].
  split; [vm_compute; reflexivity|].
  split; [reflexivity|].
  split; [vm_compute; discriminate|].
  split; [vm_compute; reflexivity|].
  split; [vm_compute; reflexivity|].
  split; vm_compute; reflexivity.
Qed.

(** * Further properties of the request builder *)

Section BuilderFurther.

Context {any : Type}.

Implicit Types (rb : @RequestBuilder any) (t : @requestItem any).
Implicit Types (c : @call any) (cs : list (@call any)).

Ltac unfold_calls H :=
  unfold AddQuery, AddStatement, WithNoFail, WithValues,
    WithEncoderAndCompression, WithEncoder, WithDecoder,
    assign_temp, flush_temp, obind in H.

(** X1. A configuring call (any call but [AddQuery] and [AddStatement])
    that returns leaves the flushed transaction and the credentials as
    they were, neither opens nor closes an item, and keeps the SQL text
    of the open item. *)
Theorem configuration_touches_open_item_only c rb rb' :
  added c = [] -> invoke c rb = Returns rb' ->
  list_ rb' = list_ rb
  /\ sql_text <$> temp rb' = sql_text <$> temp rb.
Proof.
  intros Hc Hinv.
  destruct c; simpl in Hc; try done; simpl in Hinv; unfold_calls Hinv;
    repeat (case_decide || case_match || simplify_eq/= || done);
    split; try done;
    match goal with H : temp _ = Some _ |- _ => by rewrite H end.
Qed.

Lemma well_formed_zero_query q :
  item_well_formed (set_Query q (requestItem_zero (any:=any))).
Proof. unfold item_well_formed; simpl. naive_solver. Qed.

Lemma well_formed_zero_statement s :
  item_well_formed (set_Statement s (requestItem_zero (any:=any))).
Proof. unfold item_well_formed; simpl. naive_solver. Qed.

(** A refused call only writes [rb.err]. *)
Ltac refused :=
  simplify_eq; simpl;
  repeat match goal with H : temp _ = Some _ |- _ => rewrite H; clear H end.

Lemma invoke_well_formed c rb rb' :
  invoke c rb = Returns rb' ->
  Forall item_well_formed (Transaction (list_ rb)) ->
  (forall t, temp rb = Some t -> item_well_formed t) ->
  Credentials (list_ rb) = None ->
  Forall item_well_formed (Transaction (list_ rb'))
  /\ (forall t, temp rb' = Some t -> item_well_formed t)
  /\ Credentials (list_ rb') = None.
Proof.
  intros Hinv Htx Ht Hcr.
  destruct (decide (err rb = "")) as [Herr|Herr];
    [|rewrite invoke_latched in Hinv by done; by simplify_eq].
  destruct c.
  - rewrite invoke_AddQuery in Hinv by done. simplify_eq. simpl.
    unfold flush_temp. destruct (temp rb) as [t|] eqn:Et; simpl.
    + split; [apply Forall_app; split; [done|];
              constructor; [by apply Ht|constructor]|].
      split; [intros ? [= <-]; apply well_formed_zero_query | done].
    + split; [done|]. split; [intros ? [= <-]; apply well_formed_zero_query | done].
  - rewrite invoke_AddStatement in Hinv by done. simplify_eq. simpl.
    unfold flush_temp. destruct (temp rb) as [t|] eqn:Et; simpl.
    + split; [apply Forall_app; split; [done|];
              constructor; [by apply Ht|constructor]|].
      split; [intros ? [= <-]; apply well_formed_zero_statement | done].
    + split; [done|].
      split; [intros ? [= <-]; apply well_formed_zero_statement | done].
  - simpl in Hinv. unfold_calls Hinv. rewrite decide_False in Hinv by not_ne.
    destruct (temp rb) as [t|] eqn:Et; [|done]. simplify_eq. simpl.
    split; [done|]. split; [|done]. intros ? [= <-].
    specialize (Ht t eq_refl). unfold item_well_formed in *. simpl. done.
  - simpl in Hinv. unfold WithValues in Hinv.
    rewrite decide_False in Hinv by not_ne.
    destruct values as [vals|]; [|by refused].
    destruct (temp rb) as [t|] eqn:Et; [|done].
    case_decide as Hq; [by refused|].
    specialize (Ht t eq_refl). unfold assign_temp, obind in Hinv. rewrite Et in Hinv.
    destruct Ht as (Hk & Hvb & Hb & He & Hd).
    assert (Hnq : Query t <> "" -> Values t = None /\ ValuesBatch t = None).
    { intros Hne. destruct (Values t), (ValuesBatch t); try done;
        exfalso; apply Hq; split; auto. }
    destruct (ValuesBatch t) as [batch|] eqn:Eb.
    + simplify_eq. simpl. split; [done|]. split; [|done]. intros ? [= <-].
      destruct (Hb batch eq_refl) as [Hq0 Hlen].
      unfold item_well_formed; simpl.
      split; [done|]. split; [by destruct Hvb; [left|]|].
      split; [intros ? [= <-]; split; [done|]; rewrite length_app; simpl; lia|].
      split; done.
    + destruct (Values t) as [first|] eqn:Ev; simpl in Hinv; simplify_eq; simpl;
        (split; [done|]); (split; [|done]); intros ? [= <-];
        unfold item_well_formed; simpl; rewrite ?Eb, ?Ev.
      * split; [done|]. split; [by left|].
        split; [intros ? [= <-]; split; [|simpl; lia]|split; done].
        destruct (decide (Query t = "")) as [|Hne]; [done|].
        by destruct (Hnq Hne).
      * split; [done|]. split; [by right|]. split; [done|]. split; done.
  - simpl in Hinv. unfold WithEncoderAndCompression in Hinv.
    rewrite decide_False in Hinv by not_ne.
    case_decide as Hl; [by refused|]. case_decide as Hf; [by refused|].
    destruct (temp rb) as [t|] eqn:Et; [|done].
    case_decide as Hq; [by refused|].
    unfold assign_temp in Hinv. rewrite Et in Hinv. simplify_eq. simpl.
    split; [done|]. split; [|done]. intros ? [= <-].
    destruct (Ht t eq_refl) as (Hk & Hvb & Hb & He & Hd).
    unfold item_well_formed; simpl. repeat (split; [done|]).
    split; [|done]. intros ? [= <-]. simpl. split; [done|].
    split; [intros ->; simpl in Hf; lia | right; lia].
  - simpl in Hinv. unfold WithEncoder in Hinv.
    rewrite decide_False in Hinv by not_ne.
    case_decide as Hf; [by refused|].
    destruct (temp rb) as [t|] eqn:Et; [|done].
    case_decide as Hq; [by refused|].
    unfold assign_temp in Hinv. rewrite Et in Hinv. simplify_eq. simpl.
    split; [done|]. split; [|done]. intros ? [= <-].
    destruct (Ht t eq_refl) as (Hk & Hvb & Hb & He & Hd).
    unfold item_well_formed; simpl. repeat (split; [done|]).
    split; [|done]. intros ? [= <-]. simpl. split; [done|].
    split; [intros ->; simpl in Hf; lia | by left].
  - simpl in Hinv. unfold WithDecoder in Hinv.
    rewrite decide_False in Hinv by not_ne.
    case_decide as Hf; [by refused|].
    destruct (temp rb) as [t|] eqn:Et; [|done].
    case_decide as Hq; [by refused|].
    unfold assign_temp in Hinv. rewrite Et in Hinv. simplify_eq. simpl.
    split; [done|]. split; [|done]. intros ? [= <-].
    destruct (Ht t eq_refl) as (Hk & Hvb & Hb & He & Hd).
    unfold item_well_formed; simpl. do 4 (split; [done|]).
    intros ? [= <-]. simpl. split; [done|].
    split; [intros ->; simpl in Hf; lia | done].
Qed.

Lemma chain_well_formed cs rb rb' :
  chain cs rb = Returns rb' ->
  Forall item_well_formed (Transaction (list_ rb)) ->
  (forall t, temp rb = Some t -> item_well_formed t) ->
  Credentials (list_ rb) = None ->
  Forall item_well_formed (Transaction (list_ rb'))
  /\ (forall t, temp rb' = Some t -> item_well_formed t)
  /\ Credentials (list_ rb') = None.
Proof.
  revert rb. induction cs as [|c cs IH]; intros rb Hch Htx Ht Hcr; simpl in Hch.
  - by simplify_eq.
  - destruct (invoke c rb) as [rb1|] eqn:Hinv; [simpl in Hch|done].
    destruct (invoke_well_formed _ _ _ Hinv Htx Ht Hcr) as (? & ? & ?).
    by apply (IH rb1).
Qed.

(** X2. Every request that [Build] returns for a chain of calls on a
    new builder has a non-empty transaction, no credentials, and only
    well-formed items: at most one of query and statement text, at most
    one of [Values] and [ValuesBatch], a batch only without query text
    and of at least two mappings, an encoder only without query text, a
    decoder only without statement text, non-empty encoder and decoder
    fields, and a compression level that is absent or within 1 to 19. *)
Theorem built_requests_well_formed cs (R : @Request any) :
  chain_Build cs NewRequestBuilder = Returns (Some R, None) ->
  Forall item_well_formed (Transaction (req R))
  /\ Credentials (req R) = None
  /\ Transaction (req R) <> [].
Proof.
  intros Hb. unfold chain_Build in Hb.
  destruct (chain cs NewRequestBuilder) as [rb|] eqn:Hch; [simpl in Hb|done].
  destruct (Build rb) as [[rb' out]|] eqn:HB; [simpl in Hb|done].
  simplify_eq.
  destruct (chain_well_formed _ _ _ Hch) as (Htx & Ht & Hcr); [by constructor|done|done|].
  unfold Build in HB. destruct (temp rb) as [t|] eqn:Et; simpl in HB; [|done].
  case_decide; [done|]. rewrite Et in HB. simplify_eq. simpl.
  split; [apply Forall_app; split; [done|]; constructor; [by apply Ht|constructor]|].
  split; [done|]. by destruct (Transaction (list_ rb)).
Qed.

Lemma fields_empty_iff (fields : list string) :
  Z.of_nat (length fields) <= 0 <-> fields = [].
Proof. destruct fields; simpl; split; intros; try done; lia. Qed.

(** X3. On a builder without latched error, [WithEncoder] latches an
    error exactly when the fields list is empty or the open item is a
    query (its [Query] is non-empty); otherwise, with an item open, it
    attaches an encoder with the password and the fields and no
    compression level, and changes nothing else. *)
Theorem WithEncoder_error_iff rb password fields :
  err rb = "" ->
  ((exists rb', WithEncoder password fields rb = Returns rb' /\ err rb' <> "")
   <-> (fields = [] \/ exists t, temp rb = Some t /\ Query t <> ""))
  /\ (forall t, temp rb = Some t -> fields <> [] -> Query t = "" ->
        WithEncoder password fields rb
        = Returns (set_temp (Some (set_Encoder
                     (Some {| cryptoPassword := password;
                              CompressionLevel := 0;
                              Fields := fields |}) t)) rb)).
Proof.
  intros Herr. pose proof (fields_empty_iff fields) as Hlen. split.
  - unfold WithEncoder. rewrite decide_False by not_ne.
    case_decide as Hf.
    { split; [intros _; left; by apply Hlen|].
      intros _. eexists. split; [reflexivity|]. done. }
    destruct (temp rb) as [t|] eqn:Et.
    + case_decide as Hq.
      * split; [intros _; right; by exists t|].
        intros _. eexists. split; [reflexivity|]. done.
      * split.
        -- intros (rb' & Hret & Herr'). unfold assign_temp in Hret.
           rewrite Et in Hret. by simplify_eq.
        -- intros [Hnil|(t' & ? & ?)]; [by apply Hlen in Hnil|]. by simplify_eq.
    + split; [intros (? & ? & ?); done|].
      intros [Hnil|(t' & ? & ?)]; [by apply Hlen in Hnil|done].
  - intros t Ht Hf Hq. unfold WithEncoder.
    rewrite decide_False by not_ne.
    rewrite decide_False by (by rewrite Hlen).
    rewrite Ht. rewrite decide_False by not_ne.
    by apply assign_temp_Some.
Qed.

(** X4. On a builder without latched error, [WithDecoder] latches an
    error exactly when the fields list is empty or the open item is a
    statement (its [Statement] is non-empty); otherwise, with an item
    open, it attaches a decoder with the password and the fields, and
    changes nothing else. *)
Theorem WithDecoder_error_iff rb password fields :
  err rb = "" ->
  ((exists rb', WithDecoder password fields rb = Returns rb' /\ err rb' <> "")
   <-> (fields = [] \/ exists t, temp rb = Some t /\ Statement t <> ""))
  /\ (forall t, temp rb = Some t -> fields <> [] -> Statement t = "" ->
        WithDecoder password fields rb
        = Returns (set_temp (Some (set_Decoder
                     (Some {| cryptoPassword := password;
                              CompressionLevel := 0;
                              Fields := fields |}) t)) rb)).
Proof.
  intros Herr. pose proof (fields_empty_iff fields) as Hlen. split.
  - unfold WithDecoder. rewrite decide_False by not_ne.
    case_decide as Hf.
    { split; [intros _; left; by apply Hlen|].
      intros _. eexists. split; [reflexivity|]. done. }
    destruct (temp rb) as [t|] eqn:Et.
    + case_decide as Hq.
      * split; [intros _; right; by exists t|].
        intros _. eexists. split; [reflexivity|]. done.
      * split.
        -- intros (rb' & Hret & Herr'). unfold assign_temp in Hret.
           rewrite Et in Hret. by simplify_eq.
        -- intros [Hnil|(t' & ? & ?)]; [by apply Hlen in Hnil|]. by simplify_eq.
    + split; [intros (? & ? & ?); done|].
      intros [Hnil|(t' & ? & ?)]; [by apply Hlen in Hnil|done].
  - intros t Ht Hf Hq. unfold WithDecoder.
    rewrite decide_False by not_ne.
    rewrite decide_False by (by rewrite Hlen).
    rewrite Ht. rewrite decide_False by not_ne.
    by apply assign_temp_Some.
Qed.

(** X5. The checks of the arguments come before the open item is
    read: on a builder without latched error, whatever its open item
    and even with none, a nil mapping, a compression level outside 1 to
    19 and an empty fields list are refused with their own message and
    without panic; the level is checked before the fields. *)
Theorem bad_arguments_refused_before_item rb :
  err rb = "" ->
  WithValues None rb = Returns (set_err "cannot specify a nil argument" rb)
  /\ (forall password level fields, level < 1 \/ level > 19 ->
        WithEncoderAndCompression password level fields rb
        = Returns (set_err "compressionLevel must be between 1 and 19" rb))
  /\ (forall password level, 1 <= level <= 19 ->
        WithEncoderAndCompression password level [] rb
        = Returns (set_err "cannot specify an empty fields list" rb))
  /\ (forall password,
        WithEncoder password [] rb
        = Returns (set_err "cannot specify an empty fields list" rb)
        /\ WithDecoder password [] rb
           = Returns (set_err "cannot specify an empty fields list" rb)).
Proof.
  intros Herr.
  split; [unfold WithValues; by rewrite decide_False by not_ne|].
  split; [intros p l f Hl; unfold WithEncoderAndCompression;
          rewrite decide_False by not_ne; by rewrite decide_True|].
  split; [intros p l Hl; unfold WithEncoderAndCompression;
          rewrite decide_False by not_ne; rewrite decide_False by lia;
          by rewrite decide_True|].
  intros p. unfold WithEncoder, WithDecoder.
  split; (rewrite decide_False by not_ne); reflexivity.
Qed.

Lemma Build_open rb t :
  err rb = "" -> temp rb = Some t ->
  Build rb
  = Returns (set_list (set_Transaction (Transaction (list_ rb) ++ [t]) (list_ rb)) rb,
             (Some {| req := set_Transaction (Transaction (list_ rb) ++ [t]) (list_ rb) |},
              None)).
Proof.
  intros Herr Ht. unfold Build. rewrite Ht. simpl.
  rewrite decide_False by not_ne. by rewrite Ht.
Qed.

(** X6. [Build] appends the open item to the builder's own list and
    leaves it open: on a builder without error and with an open item, a
    second [Build] returns a request whose transaction is that of the
    first with the open item once more at its end, and a chain continued
    after a [Build] carries that item twice. *)
Theorem Build_appends_open_item_each_time rb t :
  err rb = "" -> temp rb = Some t ->
  exists rb1 R1 rb2 R2,
    Build rb = Returns (rb1, (Some R1, None))
    /\ Transaction (req R1) = items rb
    /\ Build rb1 = Returns (rb2, (Some R2, None))
    /\ Transaction (req R2) = items rb ++ [t]
    /\ (forall q R3, chain_Build [CAddQuery q] rb1 = Returns (Some R3, None) ->
          Transaction (req R3)
          = items rb ++ [t; set_Query q requestItem_zero]).
Proof.
  intros Herr Ht.
  set (rb1 := set_list (set_Transaction (Transaction (list_ rb) ++ [t]) (list_ rb)) rb).
  assert (Herr1 : err rb1 = "") by done.
  assert (Ht1 : temp rb1 = Some t) by done.
  do 4 eexists.
  split; [by apply Build_open|]. split; [unfold items; by rewrite Ht|].
  split; [by apply (Build_open rb1 t)|]. split; [unfold items; by rewrite Ht|].
  intros q R3. unfold chain_Build. cbn [chain].
  rewrite invoke_AddQuery by done. cbn [obind chain].
  erewrite Build_open;
    [|simpl; by rewrite err_flush_temp|reflexivity].
  simpl. intros [= <-]. simpl. unfold flush_temp, items. simpl. rewrite Ht. simpl.
  by rewrite <- !app_assoc.
Qed.

(** X7. [Build] on a builder with no open item returns the error
    "There are no requests", whatever was latched before, and latches
    it: every later chain of calls on that builder is without effect
    and every later [Build] returns the same error. *)
Theorem Build_without_item_latches rb :
  temp rb = None ->
  exists rb1,
    Build rb = Returns (rb1, (None, Some (errors_New "There are no requests")))
    /\ (forall cs, chain cs rb1 = Returns rb1)
    /\ (forall cs, chain_Build cs rb1
                   = Returns (None, Some (errors_New "There are no requests"))).
Proof.
  intros Ht. exists (set_err "There are no requests" rb).
  assert (HB : Build rb = Returns (set_err "There are no requests" rb,
                 (None, Some (errors_New "There are no requests")))).
  { unfold Build. rewrite Ht. reflexivity. }
  split; [done|].
  assert (Hl : err (set_err "There are no requests" rb) <> "") by done.
  split; [intros cs; by apply chain_latched|].
  intros cs. unfold chain_Build. rewrite chain_latched by done. simpl.
  destruct (Build_latched _ Hl) as [_ Hnone]. by rewrite Hnone.
Qed.

(** X8. A chain of calls that begins with [AddQuery] or [AddStatement]
    never panics, on any builder, and the [Build] that ends it returns
    either a request or an error, never both and never neither. *)
Theorem opened_chain_never_panics c cs rb :
  added c <> [] ->
  exists R e, chain_Build (c :: cs) rb = Returns (R, e)
              /\ (is_Some R <-> e = None).
Proof.
  intros Hc.
  assert (exists rb1, invoke c rb = Returns rb1 /\ settled rb1) as (rb1 & Hinv & Hs).
  { destruct c; try done; simpl.
    - unfold AddQuery. case_decide; [eexists; split; [done|by left]|].
      eexists. split; [reflexivity|]. by right.
    - unfold AddStatement. case_decide; [eexists; split; [done|by left]|].
      eexists. split; [reflexivity|]. by right. }
  destruct (chain_settled cs rb1 Hs) as (rb' & Hch & Hs').
  unfold chain_Build. cbn [chain]. rewrite Hinv. simpl. rewrite Hch. simpl.
  unfold Build. destruct (temp rb') as [t|] eqn:Et; simpl.
  - case_decide; [|rewrite Et]; simpl; do 2 eexists; (split; [reflexivity|]).
    + split; [by intros [? ?]|done].
    + split; [done|by eexists].
  - do 2 eexists. split; [reflexivity|]. split; [by intros [? ?]|done].
Qed.

End BuilderFurther.

(** * Further properties of the client builder *)

Section ClientBuilderFurther.

Implicit Types (cb : ClientBuilder).


Lemma cbinvoke_authMode c cb :
  authMode (cbinvoke c cb)
  = match c with
    | CWithInlineAuth _ _ => AUTH_MODE_INLINE
    | CWithHTTPAuth _ _ => AUTH_MODE_HTTP
    | _ => authMode cb
    end.
Proof. by destruct c. Qed.

Lemma configure_snoc cs c cb :
  configure (cs ++ [c]) cb = cbinvoke c (configure cs cb).
Proof. unfold configure. by rewrite foldl_app. Qed.

(** X10. However a client builder is configured from a new one, its
    mode is one of the three known ones, and it is NONE exactly when
    neither [WithInlineAuth] nor [WithHTTPAuth] was called (no call
    sets it back to NONE); so [Build] never reports "invalid authMode"
    for it. *)
Theorem configured_authMode_is_known (cs : list cbcall) :
  (authMode (configure cs NewClientBuilder) = AUTH_MODE_HTTP
   \/ authMode (configure cs NewClientBuilder) = AUTH_MODE_NONE
   \/ authMode (configure cs NewClientBuilder) = AUTH_MODE_INLINE)
  /\ (authMode (configure cs NewClientBuilder) = AUTH_MODE_NONE
      <-> forallb (fun c => negb (is_auth_call c)) cs = true)
  /\ (ClientBuilder_Build (configure cs NewClientBuilder)).2
     <> Some (errors_New "invalid authMode").
Proof.
  assert (H : (authMode (configure cs NewClientBuilder) = AUTH_MODE_HTTP
               \/ authMode (configure cs NewClientBuilder) = AUTH_MODE_NONE
               \/ authMode (configure cs NewClientBuilder) = AUTH_MODE_INLINE)
              /\ (authMode (configure cs NewClientBuilder) = AUTH_MODE_NONE
                  <-> forallb (fun c => negb (is_auth_call c)) cs = true)).
  { induction cs as [|c cs [IH1 IH2]] using rev_ind; [by split; [right; left|]|].
    rewrite configure_snoc, cbinvoke_authMode, forallb_app. simpl.
    rewrite andb_true_r, andb_true_iff.
    destruct c; simpl; split; try done; try naive_solver. }
  destruct H as [Hk Hn]. split; [done|]. split; [done|].
  unfold ClientBuilder_Build. repeat case_decide; simpl; try done.
  naive_solver.
Qed.

Lemma string_app_assoc (s1 s2 s3 : string) : (s1 +:+ s2) +:+ s3 = s1 +:+ s2 +:+ s3.
Proof.
  induction s1 as [|a s1 IH]; [done|].
  change (String a ((s1 +:+ s2) +:+ s3) = String a (s1 +:+ s2 +:+ s3)).
  by rewrite IH.
Qed.

Lemma string_app_not_empty (s1 s2 : string) : s2 <> "" -> s1 +:+ s2 <> "".
Proof. destruct s1 as [|a s1]; [done|]. intros _. discriminate. Qed.

(** X11. The components of a URL are not validated: whatever the
    protocol, host, port and database id, empty strings and negative
    ports included, the composed URL is non-empty and [Build] on a new
    builder configured with it returns a client. Composing with a port
    is composing without port for the host followed by a colon and the
    decimal port. *)
Theorem URL_components_always_build protocol host port databaseId :
  (ClientBuilder_Build (WithURLComponents protocol host port databaseId NewClientBuilder)
   = (Some {| builder := WithURLComponents protocol host port databaseId
                           NewClientBuilder |}, None))
  /\ (ClientBuilder_Build (WithURLComponentsNoPort protocol host databaseId
                             NewClientBuilder)
      = (Some {| builder := WithURLComponentsNoPort protocol host databaseId
                              NewClientBuilder |}, None))
  /\ (forall cb, WithURLComponents protocol host port databaseId cb
                 = WithURLComponentsNoPort protocol (host +:+ ":" +:+ pretty port)
                     databaseId cb).
Proof.
  split; [|split].
  - unfold ClientBuilder_Build. rewrite decide_False; [done|].
    simpl. by apply string_app_not_empty.
  - unfold ClientBuilder_Build. rewrite decide_False; [done|].
    simpl. by apply string_app_not_empty.
  - intros cb. unfold WithURLComponents, WithURLComponentsNoPort. f_equal.
    by rewrite !string_app_assoc.
Qed.

End ClientBuilderFurther.

(** * Further properties of marshalling and of the round trip *)

Section ClientFurther.

Context {any : Type} {RT : Runtime any}.

Implicit Types (c : Client) (w : @World any) (R : @Request any).
Implicit Types (t : @requestItem any).

(** ** The payload *)

Lemma put_omitempty_is_Some empty key' v (o : gmap string json) key :
  is_Some (put_omitempty empty key' v o !! key)
  <-> (key = key' /\ empty = false) \/ is_Some (o !! key).
Proof.
  unfold put_omitempty. destruct empty.
  - naive_solver.
  - destruct (decide (key' = key)) as [->|Hne].
    + rewrite lookup_insert_eq. naive_solver.
    + rewrite lookup_insert_ne by done. naive_solver.
Qed.

Lemma marshal_maps_length (ms : list (gmap string any)) js :
  marshal_maps ms = inl js -> length js = length ms.
Proof.
  revert js. induction ms as [|m ms IH]; intros js Hm; simpl in Hm.
  - by simplify_eq.
  - destruct (marshal_map m); [simpl in Hm|done].
    destruct (marshal_maps ms) as [js'|]; [simpl in Hm|done].
    simplify_eq. simpl. by rewrite (IH js').
Qed.

(** X12. A marshalled item is an object with exactly the keys its
    struct tags allow: [query] and [statement] when the text is
    non-empty, [noFail] when set, [values] when the mapping is non-nil
    and non-empty, [valuesBatch] when the batch is non-nil and
    non-empty, [encoder] and [decoder] when attached. So an item added
    with an empty text carries neither [query] nor [statement], and an
    empty non-nil mapping given to [WithValues] is not sent. *)
Theorem marshalled_item_keys t j :
  marshal_requestItem t = inl j ->
  exists o, j = JObj o /\ forall key, is_Some (o !! key) <-> item_has_key t key.
Proof.
  unfold marshal_requestItem, ebind. intros Hm.
  assert (exists values valuesBatch,
    (valuesBatch = [] <-> ~ exists ms, ValuesBatch t = Some ms /\ ms <> [])
    /\ j = JObj
    (put_omitempty (is_nil (Decoder t)) "decoder"
       (default JNull (marshal_requestItemCrypto <$> Decoder t))
    (put_omitempty (is_nil (Encoder t)) "encoder"
       (default JNull (marshal_requestItemCrypto <$> Encoder t))
    (put_omitempty (bool_decide (valuesBatch = [])) "valuesBatch" (JArr valuesBatch)
    (put_omitempty (bool_decide (default ∅ (Values t) = ∅)) "values" values
    (put_omitempty (negb (NoFail t)) "noFail" (JBool (NoFail t))
    (put_omitempty (bool_decide (Statement t = "")) "statement" (JStr (Statement t))
    (put_omitempty (bool_decide (Query t = "")) "query" (JStr (Query t)) ∅))))))))
    as (values & valuesBatch & Hvb & ->).
  { destruct (match Values t with Some m => marshal_map m | None => inl JNull end)
      as [values|]; [|done].
    destruct (ValuesBatch t) as [ms|] eqn:Eb.
    - destruct (marshal_maps ms) as [js|] eqn:Ems; [|done]. simplify_eq.
      exists values, js. split; [|done].
      apply marshal_maps_length in Ems.
      split.
      + intros -> (ms' & [= <-] & Hne). by destruct ms.
      + intros Hno. destruct js; [done|]. exfalso. apply Hno.
        exists ms. split; [done|]. by destruct ms.
    - simplify_eq. exists values, []. split; [|done].
      split; [intros _ (? & ? & _); done | done]. }
  eexists. split; [reflexivity|]. intros key.
  rewrite !put_omitempty_is_Some, lookup_empty. unfold item_has_key.
  rewrite !bool_decide_eq_false, negb_false_iff.
  assert (is_nil (Decoder t) = false <-> Decoder t <> None) as -> by (by destruct (Decoder t)).
  assert (is_nil (Encoder t) = false <-> Encoder t <> None) as -> by (by destruct (Encoder t)).
  assert (default ∅ (Values t) <> ∅ <-> exists m, Values t = Some m /\ m <> ∅) as ->.
  { destruct (Values t) as [m|]; simpl; [naive_solver|].
    split; [done|]. by intros (? & ? & _). }
  assert (valuesBatch <> [] <-> exists ms, ValuesBatch t = Some ms /\ ms <> []) as ->.
  { rewrite Hvb. split; [|naive_solver]. intros Hnn.
    destruct (ValuesBatch t) as [[|m ms]|]; [exfalso; apply Hnn; naive_solver| |];
      [by eexists|exfalso; apply Hnn; naive_solver]. }
  pose proof (@is_Some_None json) as HN. tauto.
Qed.

Lemma marshal_transaction_items (ts : list (@requestItem any)) js :
  marshal_transaction ts = inl js ->
  Forall2 (fun t j => marshal_requestItem t = inl j) ts js.
Proof.
  revert js. induction ts as [|t ts IH]; intros js Hm; simpl in Hm.
  - simplify_eq. constructor.
  - destruct (marshal_requestItem t) as [j|] eqn:Ej; [simpl in Hm|done].
    destruct (marshal_transaction ts) as [js'|]; [simpl in Hm|done].
    simplify_eq. constructor; [done|by apply IH].
Qed.

Lemma marshalled_request_shape_items (rq : @request any) j :
  json_Marshal rq = inl j ->
  exists js, Forall2 (fun t j => marshal_requestItem t = inl j) (Transaction rq) js.
Proof.
  unfold json_Marshal, ebind. intros Hm.
  destruct (marshal_transaction (Transaction rq)) as [js|] eqn:Etx; [|done].
  exists js. by apply marshal_transaction_items.
Qed.


(** ** Values that cannot be marshalled *)

Lemma marshal_entries_inr (kvs : list (string * any)) e :
  marshal_entries kvs = inr e -> exists v, v ∈ kvs.*2 /\ json_Marshal_any v = inr e.
Proof.
  induction kvs as [|[k v] kvs IH]; simpl; [done|]. intros Hm.
  destruct (json_Marshal_any v) as [j|e'] eqn:Ev; simpl in Hm.
  - destruct (marshal_entries kvs) as [o|e'] eqn:Eo; simpl in Hm; [done|].
    simplify_eq. destruct (IH eq_refl) as (v' & Hin & Hv').
    exists v'. split; [by right|done].
  - simplify_eq. exists v. split; [by left|done].
Qed.

Lemma marshal_entries_inl (kvs : list (string * any)) o v :
  marshal_entries kvs = inl o -> v ∈ kvs.*2 -> exists j, json_Marshal_any v = inl j.
Proof.
  revert o. induction kvs as [|[k v'] kvs IH]; simpl; intros o Hm Hin.
  - by apply elem_of_nil in Hin.
  - destruct (json_Marshal_any v') as [j|] eqn:Ev; [simpl in Hm|done].
    destruct (marshal_entries kvs) as [o'|] eqn:Eo; [simpl in Hm|done].
    apply elem_of_cons in Hin as [->|Hin]; [by eexists|by eapply IH].
Qed.

Lemma marshal_maps_inr (ms : list (gmap string any)) e :
  marshal_maps ms = inr e ->
  exists v, v ∈ concat ((fun m => (map_to_list m).*2) <$> ms)
            /\ json_Marshal_any v = inr e.
Proof.
  induction ms as [|m ms IH]; simpl; [done|]. intros Hm. unfold marshal_map in Hm.
  destruct (marshal_entries (map_to_list m)) as [o|e'] eqn:Eo; simpl in Hm.
  - destruct (marshal_maps ms) as [js|e'] eqn:Ejs; simpl in Hm; [done|].
    simplify_eq. destruct (IH eq_refl) as (v & Hin & Hv).
    exists v. split; [|done]. apply elem_of_app. by right.
  - simplify_eq. destruct (marshal_entries_inr _ _ Eo) as (v & Hin & Hv).
    exists v. split; [|done]. apply elem_of_app. by left.
Qed.

Lemma marshal_maps_inl (ms : list (gmap string any)) js v :
  marshal_maps ms = inl js ->
  v ∈ concat ((fun m => (map_to_list m).*2) <$> ms) ->
  exists j, json_Marshal_any v = inl j.
Proof.
  revert js. induction ms as [|m ms IH]; simpl; intros js Hm Hin.
  - by apply elem_of_nil in Hin.
  - unfold marshal_map in Hm.
    destruct (marshal_entries (map_to_list m)) as [o|] eqn:Eo; [simpl in Hm|done].
    destruct (marshal_maps ms) as [js'|] eqn:Ejs; [simpl in Hm|done].
    apply elem_of_app in Hin as [Hin|Hin];
      [by eapply marshal_entries_inl | by eapply IH].
Qed.

Lemma marshal_requestItem_inr t e :
  marshal_requestItem t = inr e ->
  exists v, v ∈ bound_values t /\ json_Marshal_any v = inr e.
Proof.
  unfold marshal_requestItem, bound_values, marshal_map, ebind. intros Hm.
  destruct (Values t) as [m|]; simpl.
  - destruct (marshal_entries (map_to_list m)) as [o|e'] eqn:Eo.
    + destruct (ValuesBatch t) as [ms|]; simpl in *; [|done].
      destruct (marshal_maps ms) as [js|e'] eqn:Ejs; [done|]. simplify_eq.
      destruct (marshal_maps_inr _ _ Ejs) as (v & Hin & Hv).
      exists v. split; [|done]. apply elem_of_app. by right.
    + simplify_eq. destruct (marshal_entries_inr _ _ Eo) as (v & Hin & Hv).
      exists v. split; [|done]. apply elem_of_app. by left.
  - destruct (ValuesBatch t) as [ms|]; simpl in *; [|done].
    destruct (marshal_maps ms) as [js|e'] eqn:Ejs; [done|]. simplify_eq.
    by apply marshal_maps_inr.
Qed.

Lemma marshal_requestItem_inl t j v :
  marshal_requestItem t = inl j -> v ∈ bound_values t ->
  exists j', json_Marshal_any v = inl j'.
Proof.
  unfold marshal_requestItem, bound_values, marshal_map, ebind. intros Hm Hin.
  apply elem_of_app in Hin as [Hin|Hin].
  - destruct (Values t) as [m|]; simpl in Hin; [|by apply elem_of_nil in Hin].
    destruct (marshal_entries (map_to_list m)) as [o|] eqn:Eo; [|done].
    by eapply marshal_entries_inl.
  - destruct (match Values t with
              | Some m => match marshal_entries (map_to_list m) with
                          | inl a => inl (JObj a) | inr e => inr e end
              | None => inl JNull end); [|done].
    destruct (ValuesBatch t) as [ms|]; simpl in Hin; [|by apply elem_of_nil in Hin].
    destruct (marshal_maps ms) as [js|] eqn:Ejs; [|done].
    by eapply marshal_maps_inl.
Qed.

Lemma json_Marshal_inr (rq : @request any) e :
  json_Marshal rq = inr e ->
  exists t v, t ∈ Transaction rq /\ v ∈ bound_values t /\ json_Marshal_any v = inr e.
Proof.
  unfold json_Marshal, ebind. intros Hm.
  destruct (marshal_transaction (Transaction rq)) as [js|e'] eqn:Etx; [done|].
  simplify_eq. induction (Transaction rq) as [|t ts IH]; simpl in Etx; [done|].
  destruct (marshal_requestItem t) as [j|e'] eqn:Ej; simpl in Etx.
  - destruct (marshal_transaction ts) as [js|e'] eqn:Ets; simpl in Etx; [done|].
    simplify_eq. destruct (IH eq_refl) as (t' & v & Hin & Hv).
    exists t', v. split; [by right|done].
  - simplify_eq. destruct (marshal_requestItem_inr _ _ Ej) as (v & Hin & Hv).
    exists t, v. split; [by left|done].
Qed.

Lemma json_Marshal_inl (rq : @request any) j t v :
  json_Marshal rq = inl j -> t ∈ Transaction rq -> v ∈ bound_values t ->
  exists j', json_Marshal_any v = inl j'.
Proof.
  intros Hm Ht Hv.
  destruct (marshalled_request_shape_items rq j Hm) as (js & HF).
  destruct (proj1 (list_elem_of_lookup _ _) Ht) as [i Hi].
  destruct (Forall2_lookup_l _ _ _ _ _ HF Hi) as (j' & _ & Hj').
  by eapply marshal_requestItem_inl.
Qed.

(** X14. When a value bound to an item of the request cannot be
    marshalled, [Send] posts nothing and returns no response, status 0
    and the marshalling error of a bound value of the request; an
    inline client has by then written its credentials into the stored
    request. *)
Theorem unmarshallable_value_stops_Send c ctx r w R t v e0 :
  heap w !! r = Some R ->
  t ∈ Transaction (req R) -> v ∈ bound_values t -> json_Marshal_any v = inr e0 ->
  exists w' e,
    SendWithContext c ctx r w = Returns (w', (None, 0, Some e))
    /\ posted w' = posted w
    /\ (exists t' v', t' ∈ Transaction (req R) /\ v' ∈ bound_values t'
                      /\ json_Marshal_any v' = inr e)
    /\ (authMode (builder c) = AUTH_MODE_INLINE ->
        Credentials <$> (req <$> heap w' !! r)
        = Some (Some {| User := user (builder c); Password := password (builder c) |})).
Proof.
  intros HR Ht Hv Hfail. unfold SendWithContext. rewrite HR. cbv zeta.
  destruct (decide (authMode (builder c) = AUTH_MODE_INLINE)) as [Hin|Hin].
  - destruct (json_Marshal (req {| req := set_Credentials _ (req R) |}))
      as [j|e] eqn:Em.
    { destruct (json_Marshal_inl _ _ t v Em Ht Hv) as [j' Hj']. congruence. }
    do 2 eexists. split; [reflexivity|]. split; [done|].
    split; [by apply json_Marshal_inr in Em|].
    intros _. simpl. by rewrite lookup_insert_eq.
  - destruct (json_Marshal (req R)) as [j|e] eqn:Em.
    { destruct (json_Marshal_inl _ _ t v Em Ht Hv) as [j' Hj']. congruence. }
    do 2 eexists. split; [reflexivity|]. split; [done|].
    split; [by apply json_Marshal_inr in Em|done].
Qed.

(** ** The round trip *)

(** X15. Whatever [Send] returns, it returns a response exactly when it
    returns no error; a response comes with status 200; and when
    nothing was posted there is no response and the status is 0. *)
Theorem Send_outcome_exclusive c ctx r w w' res code e :
  SendWithContext c ctx r w = Returns (w', (res, code, e)) ->
  (is_Some res <-> e = None)
  /\ (is_Some res -> code = 200)
  /\ (posted w' = posted w -> res = None /\ code = 0).
Proof.
  intros Hs.
  destruct (SendWithContext_inv _ _ _ _ _ _ Hs)
    as (R & R1 & _ & _ & _ & [[Hp (e' & He)]|(jsonData & post & _ & _ & _ & Hp & Hout)]).
  { simplify_eq. split; [split; [by intros [? ?]|done]|].
    split; [by intros [? ?]|done]. }
  assert ((is_Some res <-> e = None) /\ (is_Some res -> code = 200)) as [H1 H2].
  { destruct (client_Do ctx post) as [resp|e1]; [|simplify_eq; split;
      [split; [by intros [? ?]|done] | by intros [? ?]]].
    destruct (ReadAll_Body resp) as [body|e1]; [|simplify_eq; split;
      [split; [by intros [? ?]|done] | by intros [? ?]]].
    case_decide as Hc.
    { simplify_eq. split; [split; [by intros [? ?]|done] | by intros [? ?]]. }
    destruct (json_Unmarshal_response body) as [rs|e1]; [|simplify_eq; split;
      [split; [by intros [? ?]|done] | by intros [? ?]]].
    destruct (decodeResults (wResults rs) []) as [Res|e1]; simplify_eq.
    - split; [split; [done|by eexists]|]. intros _.
      by destruct (decide (StatusCode resp = 200)).
    - split; [split; [by intros [? ?]|done] | by intros [? ?]]. }
  split; [done|]. split; [done|].
  intros Hp'. rewrite Hp' in Hp. by apply app_one_neq in Hp.
Qed.

(** X16. One call to [Send] hands at most one request to the transport.
    That request is a POST to the client's URL with the single header
    [Content-Type: application/json], its body is the marshalled stored
    request, and it carries HTTP Basic credentials, the client's user
    and password, exactly when the client is in HTTP mode. *)
Theorem Send_posts_at_most_one_request c ctx r w w' out :
  SendWithContext c ctx r w = Returns (w', out) ->
  posted w' = posted w
  \/ exists post R',
       posted w' = posted w ++ [post]
       /\ heap w' !! r = Some R'
       /\ json_Marshal (req R') = inl (Body post)
       /\ Method post = "POST"
       /\ URL post = url (builder c)
       /\ Header post = [("Content-Type", "application/json")]
       /\ BasicAuth post
          = (if decide (authMode (builder c) = AUTH_MODE_HTTP)
             then Some (user (builder c), password (builder c)) else None).
Proof.
  intros Hs.
  destruct (SendWithContext_inv _ _ _ _ _ _ Hs)
    as (R & R1 & HR & HR1 & Hh & [[Hp _]|(jsonData & post & Hm & _ & Hpost & Hp & _)]);
    [by left|].
  right. exists post, R1. split; [done|].
  split. { rewrite Hh, HR1.
           destruct (decide (authMode (builder c) = AUTH_MODE_INLINE));
             [by rewrite lookup_insert_eq|done]. }
  rewrite Hpost. cbv zeta.
  destruct (decide (authMode (builder c) = AUTH_MODE_HTTP)); simpl; by rewrite Hm.
Qed.

(** X17. A client that is not in inline mode never writes to the store,
    and when the request it sends holds no credentials, as every request
    fresh from the builder does, the posted body has no [credentials]
    key. *)
Theorem other_modes_leave_request_alone c ctx r w w' out R :
  authMode (builder c) <> AUTH_MODE_INLINE ->
  heap w !! r = Some R ->
  SendWithContext c ctx r w = Returns (w', out) ->
  heap w' = heap w
  /\ (Credentials (req R) = None ->
      forall post, posted w' = posted w ++ [post] ->
        exists o, Body post = JObj o /\ o !! "credentials" = None).
Proof.
  intros Hmode HR Hs.
  destruct (SendWithContext_inv _ _ _ _ _ _ Hs)
    as (R0 & R1 & HR0 & HR1 & Hh & Hrest).
  rewrite decide_False in Hh by done. rewrite decide_False in HR1 by done.
  simplify_eq.
  split; [done|]. intros Hcr post Hp.
  destruct Hrest as [[Hp' _]|(jsonData & post' & Hm & _ & Hpost & Hp' & _)].
  { rewrite Hp' in Hp. by apply app_one_neq in Hp. }
  rewrite Hp in Hp'. apply app_inj_tail in Hp' as [_ <-].
  destruct (json_Marshal_credentials _ _ Hm) as (o & -> & Ho).
  exists o. rewrite Ho, Hcr. split; [|done]. rewrite Hpost. cbv zeta.
  by destruct (decide (authMode (builder c) = AUTH_MODE_HTTP)).
Qed.

(** X18. Failures after the request was posted: when the transport
    fails, [Send] returns that error with status 0; when the body
    cannot be read, it returns the read error with the status of the
    answer; when a 200 body does not parse, it returns the parse error
    with status 200. No response is returned in any of these cases. *)
Theorem failures_after_posting c ctx r w w' out post :
  SendWithContext c ctx r w = Returns (w', out) ->
  posted w' = posted w ++ [post] ->
  (forall e, client_Do ctx post = inr e -> out = (None, 0, Some e))
  /\ (forall resp e, client_Do ctx post = inl resp -> ReadAll_Body resp = inr e ->
        out = (None, StatusCode resp, Some e))
  /\ (forall resp body e,
        client_Do ctx post = inl resp -> ReadAll_Body resp = inl body ->
        StatusCode resp = 200 -> json_Unmarshal_response body = inr e ->
        out = (None, 200, Some e)).
Proof.
  intros Hs Hp.
  destruct (SendWithContext_inv _ _ _ _ _ _ Hs)
    as (R & R1 & HR & _ & _ & [[Hp' _]|(jsonData & post' & _ & _ & _ & Hp' & Hout)]).
  { rewrite Hp' in Hp. by apply app_one_neq in Hp. }
  rewrite Hp in Hp'. apply app_inj_tail in Hp' as [_ <-].
  split; [|split].
  - intros e He. by rewrite He in Hout.
  - intros resp e Hdo Hb. by rewrite Hdo, Hb in Hout.
  - intros resp body e Hdo Hb Hc Hr.
    rewrite Hdo, Hb, decide_False, Hr, Hc in Hout by (by rewrite Hc; not_ne). done.
Qed.

Lemma decodeCells_inr cells (acc : gmap string any) e :
  decodeCells cells acc = inr e ->
  exists k v, (k, v) ∈ cells /\ json_Unmarshal_any v = inr e.
Proof.
  revert acc. induction cells as [|[k v] cells IH]; intros acc Hd; simpl in Hd; [done|].
  destruct (json_Unmarshal_any v) as [v2|e'] eqn:Ev; simpl in Hd.
  - destruct (IH _ Hd) as (k' & v' & Hin & Hv'). exists k', v'. split; [by right|done].
  - simplify_eq. exists k, v. split; [by left|done].
Qed.

Lemma decodeRows_inr rows (acc : list (gmap string any)) e :
  decodeRows rows acc = inr e ->
  exists row k v, row ∈ rows /\ row !! k = Some v /\ json_Unmarshal_any v = inr e.
Proof.
  revert acc. induction rows as [|row rows IH]; intros acc Hd; simpl in Hd; [done|].
  destruct (decodeCells (map_to_list row) ∅) as [Rirsi|e'] eqn:Ec; simpl in Hd.
  - destruct (IH _ Hd) as (row' & k & v & Hin & Hk & Hv).
    exists row', k, v. split; [by right|done].
  - simplify_eq. destruct (decodeCells_inr _ _ _ Ec) as (k & v & Hin & Hv).
    exists row, k, v. split; [by left|]. by apply elem_of_map_to_list in Hin.
Qed.

Lemma decodeResults_inr results (acc : list ResponseItem) e :
  decodeResults results acc = inr e ->
  exists ri rows row k v,
    ri ∈ results /\ wResultSet ri = Some rows /\ row ∈ rows
    /\ row !! k = Some v /\ json_Unmarshal_any v = inr e.
Proof.
  revert acc. induction results as [|ri results IH]; intros acc Hd; simpl in Hd; [done|].
  destruct (decodeItem ri) as [Ri|e'] eqn:Ei; simpl in Hd.
  - destruct (IH _ Hd) as (ri' & rows & row & k & v & Hin & Hrest).
    exists ri', rows, row, k, v. split; [by right|done].
  - simplify_eq. unfold decodeItem in Ei.
    destruct (wResultSet ri) as [rows|] eqn:Ers; [|done].
    destruct (decodeRows rows []) as [Rirs|e'] eqn:Er; [done|]. simpl in Ei. simplify_eq.
    destruct (decodeRows_inr _ _ _ Er) as (row & k & v & Hin & Hk & Hv).
    exists ri, rows, row, k, v. split; [by left|done].
Qed.

(** X19. Decoding is all or nothing: when a 200 body parses and [Send]
    still returns an error, no response comes with it and the error is
    the decoding error of one of the cells of the body's result sets. *)
Theorem cell_error_is_reported c ctx r w w' res code e post resp body rs :
  SendWithContext c ctx r w = Returns (w', (res, code, Some e)) ->
  posted w' = posted w ++ [post] ->
  client_Do ctx post = inl resp ->
  ReadAll_Body resp = inl body ->
  StatusCode resp = 200 ->
  json_Unmarshal_response body = inl rs ->
  res = None /\ code = 200
  /\ exists ri rows row k v,
       ri ∈ wResults rs /\ wResultSet ri = Some rows /\ row ∈ rows
       /\ row !! k = Some v /\ json_Unmarshal_any v = inr e.
Proof.
  intros Hs Hp Hdo Hb Hc Hr.
  destruct (SendWithContext_inv _ _ _ _ _ _ Hs)
    as (R & R1 & HR & _ & _ & [[Hp' _]|(jsonData & post' & _ & _ & _ & Hp' & Hout)]).
  { rewrite Hp' in Hp. by apply app_one_neq in Hp. }
  rewrite Hp in Hp'. apply app_inj_tail in Hp' as [_ <-].
  rewrite Hdo, Hb, decide_False, Hr, Hc in Hout by (by rewrite Hc; not_ne).
  destruct (decodeResults (wResults rs) []) as [Res|e'] eqn:Hd; simplify_eq.
  split; [done|]. split; [done|]. by eapply decodeResults_inr.
Qed.

(** X20. The text of the error that [Send] returns for an answer other
    than 200, as [Error] gives it, is the message parsed from the body
    when the body parses as an error, and the raw body when it does
    not. *)
Theorem non200_error_text c ctx r w w' res code e post resp body :
  SendWithContext c ctx r w = Returns (w', (res, code, Some e)) ->
  posted w' = posted w ++ [post] ->
  client_Do ctx post = inl resp ->
  ReadAll_Body resp = inl body ->
  StatusCode resp <> 200 ->
  error_Error e
  = match json_Unmarshal_WsError body WsError_zero with
    | (parsed, None) => Msg parsed
    | (_, Some _) => body
    end.
Proof.
  intros Hs Hp Hdo Hb Hc.
  destruct (SendWithContext_inv _ _ _ _ _ _ Hs)
    as (R & R1 & HR & _ & _ & [[Hp' _]|(jsonData & post' & _ & _ & _ & Hp' & Hout)]).
  { rewrite Hp' in Hp. by apply app_one_neq in Hp. }
  rewrite Hp in Hp'. apply app_inj_tail in Hp' as [_ <-].
  rewrite Hdo, Hb, decide_True in Hout by done. simplify_eq. simpl.
  by destruct (json_Unmarshal_WsError body WsError_zero) as [parsed [e'|]].
Qed.

(** X21. [Send] writes to no location of the store but the request it
    is given, and sending the same request again with the same client
    leaves the store as the first call left it. *)
Theorem Send_again_keeps_store c ctx ctx' r w w1 out1 w2 out2 :
  SendWithContext c ctx r w = Returns (w1, out1) ->
  SendWithContext c ctx' r w1 = Returns (w2, out2) ->
  (forall r', r' <> r -> heap w1 !! r' = heap w !! r')
  /\ heap w2 = heap w1.
Proof.
  intros Hs1 Hs2.
  destruct (SendWithContext_inv _ _ _ _ _ _ Hs1) as (R & R1 & HR & HR1 & Hh1 & _).
  destruct (SendWithContext_inv _ _ _ _ _ _ Hs2) as (R' & R2 & HR' & HR2 & Hh2 & _).
  split.
  - intros r' Hne. rewrite Hh1.
    destruct (decide (authMode (builder c) = AUTH_MODE_INLINE));
      [by rewrite lookup_insert_ne|done].
  - rewrite Hh2. destruct (decide (authMode (builder c) = AUTH_MODE_INLINE)); [|done].
    rewrite Hh1 in HR'. rewrite lookup_insert_eq in HR'. simplify_eq.
    rewrite Hh1. simpl. by rewrite insert_insert_eq.
Qed.

End ClientFurther.

(** * Further worked examples *)

Lemma configuration_touches_open_item_only_witness :
  list_ (set_temp (Some (set_NoFail true
           (set_Query "SELECT * FROM TEMP" requestItem_zero))) query_builder)
  = list_ query_builder
  /\ sql_text <$> temp (set_temp (Some (set_NoFail true
           (set_Query "SELECT * FROM TEMP" requestItem_zero))) query_builder)
     = sql_text <$> temp query_builder.
Proof.
  apply (configuration_touches_open_item_only CWithNoFail query_builder); reflexivity.
Defined.

Lemma built_requests_well_formed_witness :
  exists R, chain_Build test_calls NewRequestBuilder = Returns (Some R, None)
    /\ Forall item_well_formed (Transaction (req R))
    /\ Credentials (req R) = None
    /\ Transaction (req R) <> [].
Proof.
  eexists. split; [vm_compute; reflexivity|].
  apply (built_requests_well_formed test_calls). vm_compute. reflexivity.
Defined.

Lemma WithEncoder_error_iff_witness :
  ((exists rb', WithEncoder "secret" ["VAL"] statement_builder = Returns rb'
                /\ err rb' <> "")
   <-> (["VAL"] = [] \/ exists t, temp statement_builder = Some t /\ Query t <> ""))
  /\ (forall t, temp statement_builder = Some t -> ["VAL"] <> [] -> Query t = "" ->
        WithEncoder "secret" ["VAL"] statement_builder
        = Returns (set_temp (Some (set_Encoder
                     (Some {| cryptoPassword := "secret";
                              CompressionLevel := 0;
                              Fields := ["VAL"] |}) t)) statement_builder)).
Proof. apply (WithEncoder_error_iff statement_builder "secret" ["VAL"]). reflexivity. Defined.

Lemma WithDecoder_error_iff_witness :
  ((exists rb', WithDecoder "secret" ["VAL"] query_builder = Returns rb'
                /\ err rb' <> "")
   <-> (["VAL"] = [] \/ exists t, temp query_builder = Some t /\ Statement t <> ""))
  /\ (forall t, temp query_builder = Some t -> ["VAL"] <> [] -> Statement t = "" ->
        WithDecoder "secret" ["VAL"] query_builder
        = Returns (set_temp (Some (set_Decoder
                     (Some {| cryptoPassword := "secret";
                              CompressionLevel := 0;
                              Fields := ["VAL"] |}) t)) query_builder)).
Proof. apply (WithDecoder_error_iff query_builder "secret" ["VAL"]). reflexivity. Defined.

(** A decoder on a statement and an encoder on a query are refused. *)
Example crypto_on_wrong_kind :
  (exists rb, WithDecoder "secret" ["VAL"] statement_builder = Returns rb
              /\ err rb = "cannot specify a decoder for a statement")
  /\ (exists rb, WithEncoder "secret" ["VAL"] query_builder = Returns rb
                 /\ err rb = "cannot specify an encoder for a query").
Proof. split; eexists; split; reflexivity. Qed.

Lemma bad_arguments_refused_before_item_witness :
  WithValues None (NewRequestBuilder (any:=dyn))
  = Returns (set_err "cannot specify a nil argument" NewRequestBuilder)
  /\ (forall password level fields, level < 1 \/ level > 19 ->
        WithEncoderAndCompression password level fields (NewRequestBuilder (any:=dyn))
        = Returns (set_err "compressionLevel must be between 1 and 19"
                     NewRequestBuilder))
  /\ (forall password level, 1 <= level <= 19 ->
        WithEncoderAndCompression password level [] (NewRequestBuilder (any:=dyn))
        = Returns (set_err "cannot specify an empty fields list" NewRequestBuilder))
  /\ (forall password,
        WithEncoder password [] (NewRequestBuilder (any:=dyn))
        = Returns (set_err "cannot specify an empty fields list" NewRequestBuilder)
        /\ WithDecoder password [] (NewRequestBuilder (any:=dyn))
           = Returns (set_err "cannot specify an empty fields list" NewRequestBuilder)).
Proof. apply (bad_arguments_refused_before_item NewRequestBuilder). reflexivity. Defined.

Lemma Build_appends_open_item_each_time_witness :
  exists rb1 R1 rb2 R2,
    Build statement_builder = Returns (rb1, (Some R1, None))
    /\ Transaction (req R1) = items statement_builder
    /\ Build rb1 = Returns (rb2, (Some R2, None))
    /\ Transaction (req R2)
       = items statement_builder
         ++ [set_Statement "INSERT INTO TEMP (ID, VAL) VALUES (:id, :val)"
               requestItem_zero]
    /\ (forall q R3, chain_Build [CAddQuery q] rb1 = Returns (Some R3, None) ->
          Transaction (req R3)
          = items statement_builder
            ++ [set_Statement "INSERT INTO TEMP (ID, VAL) VALUES (:id, :val)"
                  requestItem_zero;
                set_Query q requestItem_zero]).
Proof.
  apply (Build_appends_open_item_each_time statement_builder
           (set_Statement "INSERT INTO TEMP (ID, VAL) VALUES (:id, :val)"
              requestItem_zero)); reflexivity.
Defined.

Lemma Build_without_item_latches_witness :
  exists rb1,
    Build (NewRequestBuilder (any:=dyn))
    = Returns (rb1, (None, Some (errors_New "There are no requests")))
    /\ (forall cs, chain cs rb1 = Returns rb1)
    /\ (forall cs, chain_Build cs rb1
                   = Returns (None, Some (errors_New "There are no requests"))).
Proof. apply (Build_without_item_latches NewRequestBuilder). reflexivity. Defined.

Lemma opened_chain_never_panics_witness :
  exists R e,
    chain_Build (CAddQuery "SELECT * FROM TEMP" :: [CWithValues None])
      (NewRequestBuilder (any:=dyn)) = Returns (R, e)
    /\ (is_Some R <-> e = None).
Proof.
  apply (opened_chain_never_panics (CAddQuery "SELECT * FROM TEMP")
           [CWithValues None] NewRequestBuilder).
  simpl. discriminate.
Defined.

Lemma marshalled_item_keys_witness :
  exists o,
    JObj (<[ "noFail" := JBool true ]> {[ "query" := JStr "SELECT * FROM TEMP" ]})
    = JObj o
    /\ forall key, is_Some (o !! key)
         <-> item_has_key (set_NoFail true
               (set_Query "SELECT * FROM TEMP" (requestItem_zero (any:=dyn)))) key.
Proof.
  apply (marshalled_item_keys (RT := scripted script200)
           (set_NoFail true (set_Query "SELECT * FROM TEMP" requestItem_zero))).
  reflexivity.
Defined.

(** An item added with an empty text and bound to an empty mapping is
    accepted by the builder and marshalled as the empty object. *)
Example empty_text_and_mapping_vanish :
  exists R t,
    chain_Build [CAddQuery ""; CWithValues (Some ∅)] (NewRequestBuilder (any:=dyn))
    = Returns (Some R, None)
    /\ Transaction (req R) = [t]
    /\ marshal_requestItem (RT := scripted script200) t = inl (JObj ∅).
Proof. do 2 eexists. split; [reflexivity|]. split; reflexivity. Qed.


Lemma unmarshallable_value_stops_Send_witness :
  exists w' e,
    SendWithContext (RT := scripted_go script200) inline_client tt 0%nat chan_world
    = Returns (w', (None, 0, Some e))
    /\ posted w' = posted chan_world
    /\ (exists t' v', t' ∈ Transaction (req chan_request) /\ v' ∈ bound_values t'
                      /\ json_Marshal_any (Runtime := scripted_go script200) v' = inr e)
    /\ (authMode (builder inline_client) = AUTH_MODE_INLINE ->
        Credentials <$> (req <$> heap w' !! 0%nat)
        = Some (Some {| User := user (builder inline_client);
                        Password := password (builder inline_client) |})).
Proof.
  apply (unmarshallable_value_stops_Send (RT := scripted_go script200)
           inline_client tt 0%nat chan_world chan_request chan_item goval_chan
           (error_lib "json" "unsupported type: chan int")).
  - reflexivity.
  - by apply list_elem_of_singleton.
  - vm_compute. by apply list_elem_of_singleton.
  - reflexivity.
Defined.

Lemma Send_outcome_exclusive_witness :
  exists w' res code e,
    SendWithContext (RT := scripted script200) http_client tt 0%nat world0
    = Returns (w', (res, code, e))
    /\ (is_Some res <-> e = None)
    /\ (is_Some res -> code = 200)
    /\ (posted w' = posted world0 -> res = None /\ code = 0).
Proof.
  do 4 eexists. split; [vm_compute; reflexivity|].
  eapply (Send_outcome_exclusive (RT := scripted script200) http_client tt 0%nat world0).
  vm_compute. reflexivity.
Defined.

Lemma Send_posts_at_most_one_request_witness :
  exists w' out,
    SendWithContext (RT := scripted script200) http_client tt 0%nat world0
    = Returns (w', out)
    /\ (posted w' = posted world0
        \/ exists post R',
             posted w' = posted world0 ++ [post]
             /\ heap w' !! 0%nat = Some R'
             /\ json_Marshal (RT := scripted script200) (req R') = inl (Body post)
             /\ Method post = "POST"
             /\ URL post = url (builder http_client)
             /\ Header post = [("Content-Type", "application/json")]
             /\ BasicAuth post
                = (if decide (authMode (builder http_client) = AUTH_MODE_HTTP)
                   then Some (user (builder http_client), password (builder http_client))
                   else None)).
Proof.
  do 2 eexists. split; [vm_compute; reflexivity|].
  eapply (Send_posts_at_most_one_request (RT := scripted script200)
            http_client tt 0%nat world0).
  vm_compute. reflexivity.
Defined.

(** What [http_client] posts for the request of [TestError]. *)
Example http_client_post :
  exists w' out,
    SendWithContext (RT := scripted script200) http_client tt 0%nat world0
    = Returns (w', out)
    /\ posted w' = [error_post].
Proof. do 2 eexists. split; [vm_compute; reflexivity|]. vm_compute. reflexivity. Qed.

Lemma other_modes_leave_request_alone_witness :
  exists w' out,
    SendWithContext (RT := scripted script200) http_client tt 0%nat world0
    = Returns (w', out)
    /\ heap w' = heap world0
    /\ (Credentials (req error_request) = None ->
        forall post, posted w' = posted world0 ++ [post] ->
          exists o, Body post = JObj o /\ o !! "credentials" = None).
Proof.
  do 2 eexists. split; [vm_compute; reflexivity|].
  eapply (other_modes_leave_request_alone (RT := scripted script200)
            http_client tt 0%nat world0);
    [discriminate | reflexivity | vm_compute; reflexivity].
Defined.

Lemma failures_after_posting_witness :
  exists w' out,
    SendWithContext (RT := offline) http_client tt 0%nat world0 = Returns (w', out)
    /\ posted w' = posted world0 ++ [error_post]
    /\ (forall e, client_Do (Runtime := offline) tt error_post = inr e ->
          out = (None, 0, Some e))
    /\ (forall resp e,
          client_Do (Runtime := offline) tt error_post = inl resp ->
          ReadAll_Body resp = inr e -> out = (None, StatusCode resp, Some e))
    /\ (forall resp body e,
          client_Do (Runtime := offline) tt error_post = inl resp ->
          ReadAll_Body resp = inl body -> StatusCode resp = 200 ->
          json_Unmarshal_response (Runtime := offline) body = inr e ->
          out = (None, 200, Some e)).
Proof.
  do 2 eexists. split; [vm_compute; reflexivity|].
  split; [vm_compute; reflexivity|].
  eapply (failures_after_posting (RT := offline) http_client tt 0%nat world0);
    vm_compute; reflexivity.
Defined.

(** With the transport down, [Send] returns its error and status 0. *)
Example offline_outcome :
  exists w',
    SendWithContext (RT := offline) http_client tt 0%nat world0
    = Returns (w', (None, 0, Some connection_refused)).
Proof. eexists. vm_compute. reflexivity. Qed.

Lemma cell_error_is_reported_witness :
  exists w',
    SendWithContext (RT := scripted script200_raw) http_client tt 0%nat world0
    = Returns (w', (None, 200, Some syntax_error))
    /\ @None (@Response dyn) = None /\ 200 = 200
    /\ exists ri rows row k v,
         ri ∈ results200 /\ wResultSet ri = Some rows /\ row ∈ rows
         /\ row !! k = Some v
         /\ json_Unmarshal_any (Runtime := scripted script200_raw) v = inr syntax_error.
Proof.
  eexists. split; [vm_compute; reflexivity|].
  eapply (cell_error_is_reported (RT := scripted script200_raw)
            http_client tt 0%nat world0 _ None 200 syntax_error error_post
            {| StatusCode := 200; ReadAll_Body := inl body200 |} body200
            {| wResults := results200 |});
    [vm_compute; reflexivity | vm_compute; reflexivity | reflexivity | reflexivity
    | reflexivity | vm_compute; reflexivity].
Defined.

Lemma non200_error_text_witness :
  exists w',
    SendWithContext (RT := scripted script500) inline_client tt 0%nat world0
    = Returns (w', (None, 500,
                    Some (error_WsError {| RequestIdx := 0;
                                           Msg := "near SELENCT: syntax error";
                                           Code := 500 |})))
    /\ error_Error (error_WsError {| RequestIdx := 0;
                                     Msg := "near SELENCT: syntax error";
                                     Code := 500 |})
       = match json_Unmarshal_WsError (Runtime := scripted script500)
                 body500 WsError_zero with
         | (parsed, None) => Msg parsed
         | (_, Some _) => body500
         end.
Proof.
  eexists. split; [vm_compute; reflexivity|].
  eapply (non200_error_text (RT := scripted script500)
            inline_client tt 0%nat world0 _ None 500 _ _
            {| StatusCode := 500; ReadAll_Body := inl body500 |} body500);
    [vm_compute; reflexivity | reflexivity | reflexivity | reflexivity | discriminate].
Defined.

Lemma Send_again_keeps_store_witness :
  exists w1 out1 w2 out2,
    SendWithContext (RT := scripted script200) inline_client tt 0%nat world0
    = Returns (w1, out1)
    /\ SendWithContext (RT := scripted script200) inline_client tt 0%nat w1
       = Returns (w2, out2)
    /\ (forall r', r' <> 0%nat -> heap w1 !! r' = heap world0 !! r')
    /\ heap w2 = heap w1.
Proof.
  do 4 eexists. split; [vm_compute; reflexivity|].
  split; [vm_compute; reflexivity|].
  eapply (Send_again_keeps_store (RT := scripted script200)
            inline_client tt tt 0%nat world0);
    vm_compute; reflexivity.
Defined.
